(** * Bulk operations manager (inventory/js/bulk-operations.js)

    A shallow embedding of [BulkOperationsManager]: the selection set, the
    guards of [handleBulkAction], the three batch loops ([executeBulkUpdate],
    [executeBulkStockAdjustment], [bulkActivateDeactivate]), the generic
    [executeOperation] wrapper and [cancelCurrentOperation].

    The manager object ([this]), the part of the DOM the methods write to and
    the network are one explicit [world]; every method is a computation in a
    small state monad over it.  What the browser and the server decide
    (responses, [confirm], the moment the user clicks Cancel) comes from an
    [env] oracle. *)

From Stdlib Require Import Ascii String List Arith Lia Bool DecimalString Sorted.
Import ListNotations.
Open Scope string_scope.
Open Scope nat_scope.
Open Scope list_scope.

(* ------------------------------------------------------------------ *)
(** ** Values *)

(** Record identifiers are the [value] attributes of the row checkboxes. *)
Definition item_id := string.

(** Template-literal interpolation of a number. *)
Definition show_nat (n : nat) : string := NilEmpty.string_of_uint (Nat.to_uint n).

(** A template literal: its pieces, concatenated. *)
Definition template (pieces : list string) : string := String.concat "" pieces.

(** [Array.prototype.slice(a, b)] for [0 <= a], clamped to the array. *)
Definition slice {A : Type} (l : list A) (a b : nat) : list A :=
  firstn (b - a) (skipn a l).

Inductive alert_type : Type :=
| AlertSuccess | AlertError | AlertWarning | AlertInfo.

(** [FormData]: the submitted (name, value) pairs, in document order. *)
Definition FormData := list (string * string).

Definition getAll (fd : FormData) (name : string) : list string :=
  map snd (filter (fun p => String.eqb (fst p) name) fd).

Definition get (fd : FormData) (name : string) : option string :=
  hd_error (getAll fd name).

(** [updateData]: the checked fields and the raw inputs that go with them
    (numeric parsing of the inputs is left to the server side of the model:
    the values stay the strings of the form). *)
Record update_data : Type := {
  fields : list string;
  values : list (string * list (option string))
}.

(** [adjustmentData] of [executeBulkStockAdjustment]. *)
Record adjustment_data : Type := {
  adjustment_type : option string;
  quantity : option string;
  location_id : option string;
  reason : option string;
  notes : option string
}.

(** Requests that leave the page. *)
Inductive request : Type :=
| GetCategories
| GetSuppliers
| GetLocations
| PostBulkUpdate (product_ids : list item_id) (data : update_data)
| PostAdjustStock (product_id : item_id) (data : adjustment_data)
| PostBulkActivate (product_ids : list item_id) (is_active : bool)
| PostExport (product_ids : list item_id).

(** The parsed body of a reply: [{ success, errors?, error? }].  A missing or
    falsy [errors] is [None]. *)
Record json_result : Type := {
  r_success : bool;
  r_errors : option (list string);
  r_error : option string
}.

(** What [await fetch(...)] followed by [await response.json()] gives: the
    promise is rejected (transport failure, or a body that is not JSON), or a
    result object arrives. *)
Inductive response : Type :=
| Rejected (message : string)
| Replied (result : json_result).

(** Points where an operation is suspended and handlers of user events can
    run: while the reply to the [k]-th request is awaited and, in the stock
    loop, during the 100ms pause after the [k]-th item. *)
Inductive suspension : Type :=
| AwaitResponse (k : nat)
| Pause (k : nat).

Record env : Type := {
  response_of : nat -> response;       (* reply to the k-th request of a loop *)
  cancel_clicked : suspension -> bool; (* the user clicks Cancel there *)
  confirm_answer : bool;               (* window.confirm *)
  lookup_rejected : request -> bool    (* a GET for select options fails *)
}.

(* ------------------------------------------------------------------ *)
(** ** The world *)

(** The progress modal built by [createProgressModal]. *)
Record progress_dom : Type := {
  modalShown : bool;
  progressTitle : string;
  itemsCount : nat;
  successCount : nat;
  errorCount : nat;
  progressCount : nat * nat;
  overallProgress : option (nat * nat);  (* the literal 0%, or the percentage of
                                           completed over total *)
  progressText : string;
  currentItem : string;
  errorLogShown : bool;
  errorLog : list string;
  cancelShown : bool;
  closeShown : bool
}.

Record checkbox : Type := {
  value : item_id;
  checked : bool
}.

(** The rest of the page the manager touches. *)
Record page_dom : Type := {
  itemCheckboxes : list checkbox;
  selectAll : option (bool * bool);   (* #selectAll: checked, indeterminate *)
  toolbar : option (bool * nat);      (* toolbar: displayed, #selectedCount *)
  updateModalOpen : bool;
  stockModalOpen : bool
}.

Record world : Type := {
  (* fields of the manager object *)
  selectedItems : list item_id;       (* a Set, in insertion order *)
  operationInProgress : bool;
  currentOperation : option string;
  (* DOM *)
  progressDom : progress_dom;
  page : page_dom;
  (* observable effects, oldest first *)
  alerts : list (string * alert_type);
  network : list request;
  progressCalls : list (nat * nat * string);  (* arguments of progress.update *)
  refreshes : nat                             (* product list refresh asked *)
}.

Definition initial_progress_dom : progress_dom :=
  {| modalShown := false;
     progressTitle := "Processing Bulk Operation";
     itemsCount := 0; successCount := 0; errorCount := 0;
     progressCount := (0, 0); overallProgress := None;
     progressText := "Preparing operation...";
     currentItem := "Ready to start...";
     errorLogShown := false; errorLog := [];
     cancelShown := true; closeShown := false |}.

(** The manager right after its constructor, on a page [p]. *)
Definition constructed (p : page_dom) : world :=
  {| selectedItems := [];
     operationInProgress := false;
     currentOperation := None;
     progressDom := initial_progress_dom;
     page := p;
     alerts := []; network := []; progressCalls := []; refreshes := 0 |}.

(** Field updates. *)
Definition set_selectedItems (s : list item_id) (w : world) : world :=
  {| selectedItems := s;
     operationInProgress := operationInProgress w;
     currentOperation := currentOperation w;
     progressDom := progressDom w; page := page w;
     alerts := alerts w; network := network w;
     progressCalls := progressCalls w; refreshes := refreshes w |}.

Definition set_operationInProgress (b : bool) (w : world) : world :=
  {| selectedItems := selectedItems w;
     operationInProgress := b;
     currentOperation := currentOperation w;
     progressDom := progressDom w; page := page w;
     alerts := alerts w; network := network w;
     progressCalls := progressCalls w; refreshes := refreshes w |}.

Definition set_currentOperation (o : option string) (w : world) : world :=
  {| selectedItems := selectedItems w;
     operationInProgress := operationInProgress w;
     currentOperation := o;
     progressDom := progressDom w; page := page w;
     alerts := alerts w; network := network w;
     progressCalls := progressCalls w; refreshes := refreshes w |}.

Definition set_progressDom (d : progress_dom) (w : world) : world :=
  {| selectedItems := selectedItems w;
     operationInProgress := operationInProgress w;
     currentOperation := currentOperation w;
     progressDom := d; page := page w;
     alerts := alerts w; network := network w;
     progressCalls := progressCalls w; refreshes := refreshes w |}.

Definition set_page (p : page_dom) (w : world) : world :=
  {| selectedItems := selectedItems w;
     operationInProgress := operationInProgress w;
     currentOperation := currentOperation w;
     progressDom := progressDom w; page := p;
     alerts := alerts w; network := network w;
     progressCalls := progressCalls w; refreshes := refreshes w |}.

Definition push_alert (a : string * alert_type) (w : world) : world :=
  {| selectedItems := selectedItems w;
     operationInProgress := operationInProgress w;
     currentOperation := currentOperation w;
     progressDom := progressDom w; page := page w;
     alerts := alerts w ++ [a]; network := network w;
     progressCalls := progressCalls w; refreshes := refreshes w |}.

Definition push_request (r : request) (w : world) : world :=
  {| selectedItems := selectedItems w;
     operationInProgress := operationInProgress w;
     currentOperation := currentOperation w;
     progressDom := progressDom w; page := page w;
     alerts := alerts w; network := network w ++ [r];
     progressCalls := progressCalls w; refreshes := refreshes w |}.

Definition push_progressCall (c : nat * nat * string) (w : world) : world :=
  {| selectedItems := selectedItems w;
     operationInProgress := operationInProgress w;
     currentOperation := currentOperation w;
     progressDom := progressDom w; page := page w;
     alerts := alerts w; network := network w;
     progressCalls := progressCalls w ++ [c]; refreshes := refreshes w |}.

Definition count_refresh (w : world) : world :=
  {| selectedItems := selectedItems w;
     operationInProgress := operationInProgress w;
     currentOperation := currentOperation w;
     progressDom := progressDom w; page := page w;
     alerts := alerts w; network := network w;
     progressCalls := progressCalls w; refreshes := S (refreshes w) |}.

(* ------------------------------------------------------------------ *)
(** ** The monad of methods

    A method maps the world to a result and a new world; [None] stands for a
    loop that runs out of fuel, that is, for a method that does not return. *)

Definition M (A : Type) : Type := world -> option (A * world).

Definition ret {A : Type} (a : A) : M A := fun w => Some (a, w).

Definition bind {A B : Type} (m : M A) (f : A -> M B) : M B :=
  fun w => match m w with
           | Some (a, w') => f a w'
           | None => None
           end.

Definition gets {A : Type} (f : world -> A) : M A := fun w => Some (f w, w).

Definition modify (f : world -> world) : M unit := fun w => Some (tt, f w).

Definition diverge {A : Type} : M A := fun _ => None.

Declare Scope method_scope.
Delimit Scope method_scope with method.
Notation "x <- m ;; k" := (bind m (fun x => k))
  (at level 61, m at next level, right associativity) : method_scope.
Notation "m ;; k" := (bind m (fun _ => k))
  (at level 61, right associativity) : method_scope.
Notation "' pat <- m ;; k" := (bind m (fun x => match x with pat => k end))
  (at level 61, pat pattern, m at next level, right associativity) : method_scope.
Open Scope method_scope.

Definition when (b : bool) (m : M unit) : M unit := if b then m else ret tt.

(** [forEach] over an array. *)
Fixpoint forEach {A : Type} (f : A -> M unit) (l : list A) : M unit :=
  match l with
  | [] => ret tt
  | a :: l' => f a ;; forEach f l'
  end.

(* ------------------------------------------------------------------ *)
(** ** Selection tracker *)

(** [Set.prototype.has / add / delete] on a Set kept in insertion order. *)
Definition Set_has (s : list item_id) (x : item_id) : bool :=
  existsb (String.eqb x) s.

Definition Set_add (x : item_id) (s : list item_id) : list item_id :=
  if Set_has s x then s else s ++ [x].

Definition Set_delete (x : item_id) (s : list item_id) : list item_id :=
  filter (fun y => negb (String.eqb y x)) s.

(** [Set.prototype.size]. *)
Definition size (w : world) : nat := length (selectedItems w).

Definition set_itemCheckboxes (l : list checkbox) (p : page_dom) : page_dom :=
  {| itemCheckboxes := l; selectAll := selectAll p; toolbar := toolbar p;
     updateModalOpen := updateModalOpen p; stockModalOpen := stockModalOpen p |}.

Definition set_selectAll (s : option (bool * bool)) (p : page_dom) : page_dom :=
  {| itemCheckboxes := itemCheckboxes p; selectAll := s; toolbar := toolbar p;
     updateModalOpen := updateModalOpen p; stockModalOpen := stockModalOpen p |}.

Definition set_toolbar (t : option (bool * nat)) (p : page_dom) : page_dom :=
  {| itemCheckboxes := itemCheckboxes p; selectAll := selectAll p; toolbar := t;
     updateModalOpen := updateModalOpen p; stockModalOpen := stockModalOpen p |}.

Definition set_updateModalOpen (b : bool) (p : page_dom) : page_dom :=
  {| itemCheckboxes := itemCheckboxes p; selectAll := selectAll p;
     toolbar := toolbar p;
     updateModalOpen := b; stockModalOpen := stockModalOpen p |}.

Definition set_stockModalOpen (b : bool) (p : page_dom) : page_dom :=
  {| itemCheckboxes := itemCheckboxes p; selectAll := selectAll p;
     toolbar := toolbar p;
     updateModalOpen := updateModalOpen p; stockModalOpen := b |}.

Definition modify_page (f : page_dom -> page_dom) : M unit :=
  modify (fun w => set_page (f (page w)) w).

(** [updateSelectionToolbar]: shown with the count when the selection is not
    empty, hidden (count label left as it is) otherwise. *)
Definition updateSelectionToolbar : M unit :=
  n <- gets size ;;
  modify_page (fun p =>
    match toolbar p with
    | None => p
    | Some (_, label) =>
        if 0 <? n then set_toolbar (Some (true, n)) p
        else set_toolbar (Some (false, label)) p
    end).

(** [updateSelectAllState]: the tri-state of the header checkbox. *)
Definition updateSelectAllState : M unit :=
  modify_page (fun p =>
    match selectAll p, itemCheckboxes p with
    | Some _, _ :: _ =>
        let checkedCount := length (filter checked (itemCheckboxes p)) in
        if checkedCount =? 0 then set_selectAll (Some (false, false)) p
        else if checkedCount =? length (itemCheckboxes p)
             then set_selectAll (Some (true, false)) p
             else set_selectAll (Some (false, true)) p
    | _, _ => p
    end).

(** [handleItemSelection(checkbox)]. *)
Definition handleItemSelection (cb : checkbox) : M unit :=
  let itemId := value cb in
  (if checked cb
   then modify (fun w => set_selectedItems (Set_add itemId (selectedItems w)) w)
   else modify (fun w => set_selectedItems (Set_delete itemId (selectedItems w)) w)) ;;
  updateSelectionToolbar ;;
  updateSelectAllState.

(** [checkbox.checked = c] on the [n]-th row checkbox of the page. *)
Fixpoint set_checked_at (n : nat) (c : bool) (l : list checkbox) : list checkbox :=
  match l, n with
  | [], _ => []
  | cb :: l', 0 => {| value := value cb; checked := c |} :: l'
  | cb :: l', S n' => cb :: set_checked_at n' c l'
  end.

(** [toggleSelectAll(checked)]: every row checkbox is set, then handled. *)
Definition toggleSelectAll (c : bool) : M unit :=
  cbs <- gets (fun w => itemCheckboxes (page w)) ;;
  forEach (fun ncb : nat * checkbox =>
             modify_page (fun p =>
               set_itemCheckboxes (set_checked_at (fst ncb) c (itemCheckboxes p)) p) ;;
             handleItemSelection {| value := value (snd ncb); checked := c |})
          (combine (seq 0 (length cbs)) cbs).

(** [selectAllVisible] (Ctrl+A inside the table). *)
Definition selectAllVisible : M unit :=
  sa <- gets (fun w => selectAll (page w)) ;;
  match sa with
  | Some (_, ind) =>
      modify_page (set_selectAll (Some (true, ind))) ;;
      toggleSelectAll true
  | None => ret tt
  end.

(** [clearSelection]. *)
Definition clearSelection : M unit :=
  modify (set_selectedItems []) ;;
  modify_page (fun p =>
    set_itemCheckboxes
      (map (fun cb => {| value := value cb; checked := false |}) (itemCheckboxes p)) p) ;;
  updateSelectionToolbar ;;
  updateSelectAllState.

(** [refreshProductList]: the selection is cleared and the list is reloaded
    (through [InventoryApp.updateProductList] or a page reload). *)
Definition refreshProductList : M unit :=
  clearSelection ;;
  modify count_refresh.

(** The change events the selection reacts to ([setupEventListeners]): the
    browser has set the [n]-th row checkbox to [c], or the header checkbox to
    [c]; and the toolbar's "Clear selection" button. *)
Inductive selection_event : Type :=
| ItemChange (n : nat) (c : bool)
| SelectAllChange (c : bool)
| ClearClicked.

Definition on_selection_event (ev : selection_event) : M unit :=
  match ev with
  | ItemChange n c =>
      cbs <- gets (fun w => itemCheckboxes (page w)) ;;
      match nth_error cbs n with
      | Some cb =>
          modify_page (fun p =>
            set_itemCheckboxes (set_checked_at n c (itemCheckboxes p)) p) ;;
          handleItemSelection {| value := value cb; checked := c |}
      | None => ret tt
      end
  | SelectAllChange c => toggleSelectAll c
  | ClearClicked => clearSelection
  end.

(* ------------------------------------------------------------------ *)
(** ** Alerts, progress modal, operation wrapper *)

(** [showAlert(message, type)]. *)
Definition showAlert (message : string) (type : alert_type) : M unit :=
  modify (push_alert (message, type)).

Definition fetch (r : request) : M unit := modify (push_request r).

Definition modify_progress (f : progress_dom -> progress_dom) : M unit :=
  modify (fun w => set_progressDom (f (progressDom w)) w).

Definition set_progressText (s : string) (d : progress_dom) : progress_dom :=
  {| modalShown := modalShown d; progressTitle := progressTitle d;
     itemsCount := itemsCount d; successCount := successCount d;
     errorCount := errorCount d; progressCount := progressCount d;
     overallProgress := overallProgress d;
     progressText := s;
     currentItem := currentItem d;
     errorLogShown := errorLogShown d; errorLog := errorLog d;
     cancelShown := cancelShown d; closeShown := closeShown d |}.

(** Cancel hidden, Close shown. *)
Definition swap_buttons (d : progress_dom) : progress_dom :=
  {| modalShown := modalShown d; progressTitle := progressTitle d;
     itemsCount := itemsCount d; successCount := successCount d;
     errorCount := errorCount d; progressCount := progressCount d;
     overallProgress := overallProgress d;
     progressText := progressText d;
     currentItem := currentItem d;
     errorLogShown := errorLogShown d; errorLog := errorLog d;
     cancelShown := false; closeShown := true |}.

Definition set_modalShown (b : bool) (d : progress_dom) : progress_dom :=
  {| modalShown := b; progressTitle := progressTitle d;
     itemsCount := itemsCount d; successCount := successCount d;
     errorCount := errorCount d; progressCount := progressCount d;
     overallProgress := overallProgress d;
     progressText := progressText d;
     currentItem := currentItem d;
     errorLogShown := errorLogShown d; errorLog := errorLog d;
     cancelShown := cancelShown d; closeShown := closeShown d |}.

(** [progress.update(completed, total, message)]. *)
Definition progress_update (completed total : nat) (message : string) : M unit :=
  modify_progress (fun d =>
    {| modalShown := modalShown d; progressTitle := progressTitle d;
       itemsCount := itemsCount d;
       successCount := completed;
       errorCount := errorCount d;
       progressCount := (completed, total);
       overallProgress := Some (completed, total);
       progressText := message;
       currentItem := currentItem d;
       errorLogShown := errorLogShown d; errorLog := errorLog d;
       cancelShown := cancelShown d; closeShown := closeShown d |}) ;;
  modify (push_progressCall (completed, total, message)).

(** [progress.updateCurrent(currentItem)]. *)
Definition progress_updateCurrent (item : string) : M unit :=
  modify_progress (fun d =>
    {| modalShown := modalShown d; progressTitle := progressTitle d;
       itemsCount := itemsCount d; successCount := successCount d;
       errorCount := errorCount d; progressCount := progressCount d;
       overallProgress := overallProgress d;
       progressText := progressText d;
       currentItem := item;
       errorLogShown := errorLogShown d; errorLog := errorLog d;
       cancelShown := cancelShown d; closeShown := closeShown d |}).

(** [progress.addError(error)]: [errorLog] lists the fragments appended to the
    [innerHTML] of the error log since it was last emptied. *)
Definition progress_addError (error : string) : M unit :=
  modify_progress (fun d =>
    {| modalShown := modalShown d; progressTitle := progressTitle d;
       itemsCount := itemsCount d; successCount := successCount d;
       errorCount := errorCount d + 1;
       progressCount := progressCount d;
       overallProgress := overallProgress d;
       progressText := progressText d;
       currentItem := currentItem d;
       errorLogShown := true;
       errorLog := errorLog d ++ [template ["<li>"; error; "</li>"]];
       cancelShown := cancelShown d; closeShown := closeShown d |}).

(** What an operation function resolves to. *)
Record op_result : Type := {
  success : bool;
  completed : nat;
  total : nat;
  errors : list string
}.

(** [executeOperation(title, operationFunc)].  The operation functions of
    this file catch every failure themselves, so only the [try] and the
    [finally] parts run. *)
Definition executeOperation (title : string) (operationFunc : M op_result) : M unit :=
  modify (set_operationInProgress true) ;;
  modify (set_currentOperation (Some title)) ;;
  n <- gets size ;;
  modify_progress (fun d =>
    {| modalShown := modalShown d;
       progressTitle := title;
       itemsCount := n;
       successCount := 0;
       errorCount := 0;
       progressCount := (0, n);
       overallProgress := None;
       progressText := "Starting operation...";
       currentItem := "Preparing...";
       errorLogShown := false;
       errorLog := [];
       cancelShown := true;
       closeShown := false |}) ;;
  modify_progress (set_modalShown true) ;;
  result <- operationFunc ;;
  forEach progress_addError (errors result) ;;
  let successMessage :=
    if success result
    then template ["Operation completed successfully! Processed ";
                   show_nat (completed result); " items."]
    else template ["Operation completed with ";
                   show_nat (length (errors result)); " errors. ";
                   show_nat (completed result);
                   " items processed successfully."] in
  modify_progress (set_progressText successMessage) ;;
  showAlert successMessage (if success result then AlertSuccess else AlertWarning) ;;
  (* finally *)
  modify (set_operationInProgress false) ;;
  modify_progress swap_buttons.

(** [cancelCurrentOperation]. *)
Definition cancelCurrentOperation : M unit :=
  inProgress <- gets operationInProgress ;;
  when inProgress
    (modify (set_operationInProgress false) ;;
     modify_progress (set_progressText "Operation cancelled by user") ;;
     modify_progress swap_buttons ;;
     showAlert "Operation cancelled" AlertWarning).

(** [resetProgress], and the Close button of the progress modal. *)
Definition resetProgress : M unit :=
  modify (set_operationInProgress false) ;;
  modify (set_currentOperation None).

Definition closeProgressClicked : M unit :=
  modify_progress (set_modalShown false) ;;
  resetProgress.

(** A suspension point of a running operation: the Cancel button's click
    handler runs there when the user clicks it (a hidden button cannot be
    clicked). *)
Definition suspended (e : env) (s : suspension) : M unit :=
  visible <- gets (fun w => cancelShown (progressDom w)) ;;
  when (cancel_clicked e s && visible) cancelCurrentOperation.

(* ------------------------------------------------------------------ *)
(** ** Bulk field update *)

(** The entries [parseUpdateFormData] stores in [updateData.values] for one
    checked field (their inputs kept as submitted). *)
Definition field_values (fd : FormData) (field : string)
  : list (string * list (option string)) :=
  if String.eqb field "cost_price" then
    [("cost_price", [get fd "cost_price_method"; get fd "cost_price_value"])]
  else if String.eqb field "selling_price" then
    [("selling_price", [get fd "selling_price_method"; get fd "selling_price_value"])]
  else if String.eqb field "category" then [("category_id", [get fd "category_id"])]
  else if String.eqb field "supplier" then [("supplier_id", [get fd "supplier_id"])]
  else if String.eqb field "is_active" then [("is_active", [get fd "is_active"])]
  else if String.eqb field "reorder_level" then
    [("reorder_level", [get fd "reorder_level"])]
  else if String.eqb field "reorder_quantity" then
    [("reorder_quantity", [get fd "reorder_quantity"])]
  else if String.eqb field "max_stock_level" then
    [("max_stock_level", [get fd "max_stock_level"])]
  else [].

(** [parseUpdateFormData(formData)]. *)
Definition parseUpdateFormData (fd : FormData) : update_data :=
  let updateFields := getAll fd "update_fields" in
  {| fields := updateFields;
     values := flat_map (field_values fd) updateFields |}.

(** The body of one iteration of a batch loop once the reply [r] to the
    request for [batch] is there: the [if (result.success)] of the [try] and
    the [catch].  [verb] is the first word of the progress message. *)
Definition settleBatch (verb : string) (total : nat) (batch : list item_id)
    (r : response) (completed : nat) (errors : list string)
  : M (nat * list string) :=
  match r with
  | Rejected message =>
      ret (completed, errors ++ [template ["Batch error: "; message]])
  | Replied result =>
      if r_success result then
        let completed := completed + length batch in
        progress_update completed total
          (template [verb; " "; show_nat completed; " of "; show_nat total;
                     " products"]) ;;
        ret (completed, errors)
      else
        ret (completed,
             errors ++ match r_errors result with
                       | Some reported => reported
                       | None => ["Unknown error in batch"]
                       end)
  end.

(** [for (let i = 0; i < selectedIds.length; i += batchSize)] of
    [executeBulkUpdate] and [bulkActivateDeactivate]; [k] counts the requests
    issued so far. *)
Fixpoint batchLoop (fuel : nat) (batchSize : nat)
    (mkRequest : list item_id -> request) (verb : string) (e : env)
    (selectedIds : list item_id) (i k : nat)
    (completed : nat) (errors : list string) : M (nat * list string) :=
  if i <? length selectedIds then
    match fuel with
    | 0 => diverge
    | S fuel' =>
        let batch := slice selectedIds i (i + batchSize) in
        fetch (mkRequest batch) ;;
        suspended e (AwaitResponse k) ;;
        '(completed', errors') <-
          settleBatch verb (length selectedIds) batch (response_of e k)
                      completed errors ;;
        batchLoop fuel' batchSize mkRequest verb e selectedIds
                  (i + batchSize) (S k) completed' errors'
    end
  else ret (completed, errors).

(** The operation function [executeBulkUpdate] hands to [executeOperation]. *)
Definition bulkUpdateOperation (updateData : update_data) (e : env) : M op_result :=
  selectedIds <- gets selectedItems ;;
  let batchSize := 10 in
  '(completed, errors) <-
    batchLoop (length selectedIds) batchSize
              (fun batch => PostBulkUpdate batch updateData) "Updated" e
              selectedIds 0 0 0 [] ;;
  ret {| success := length errors =? 0;
         completed := completed;
         total := length selectedIds;
         errors := errors |}.

(** [executeBulkUpdate(formData)]. *)
Definition executeBulkUpdate (formData : FormData) (e : env) : M unit :=
  let updateData := parseUpdateFormData formData in
  if length (fields updateData) =? 0 then
    showAlert "Please select at least one field to update" AlertWarning
  else
    modify_page (set_updateModalOpen false) ;;
    executeOperation "Bulk Update Products" (bulkUpdateOperation updateData e) ;;
    refreshProductList.

(* ------------------------------------------------------------------ *)
(** ** Bulk stock adjustment *)

(** Interpolation of [result.error]. *)
Definition show_error (o : option string) : string :=
  match o with Some s => s | None => "undefined" end.

Definition settleItem (total : nat) (productId : item_id) (r : response)
    (completed : nat) (errors : list string) : M (nat * list string) :=
  match r with
  | Rejected message =>
      ret (completed, errors ++ [template ["Product "; productId; ": "; message]])
  | Replied result =>
      if r_success result then
        let completed := S completed in
        progress_update completed total
          (template ["Adjusted "; show_nat completed; " of "; show_nat total;
                     " products"]) ;;
        ret (completed, errors)
      else
        ret (completed,
             errors ++ [template ["Product "; productId; ": ";
                                  show_error (r_error result)]])
  end.

(** [for (let i = 0; i < selectedIds.length; i++)] over [selectedIds[i]]:
    [rest] is the array from index [i] on. *)
Fixpoint stockLoop (adjustmentData : adjustment_data) (e : env) (total : nat)
    (rest : list item_id) (i : nat)
    (completed : nat) (errors : list string) : M (nat * list string) :=
  match rest with
  | [] => ret (completed, errors)
  | productId :: rest' =>
      progress_updateCurrent (template ["Processing product ID: "; productId]) ;;
      fetch (PostAdjustStock productId adjustmentData) ;;
      suspended e (AwaitResponse i) ;;
      '(completed', errors') <-
        settleItem total productId (response_of e i) completed errors ;;
      suspended e (Pause i) ;;
      stockLoop adjustmentData e total rest' (S i) completed' errors'
  end.

Definition stockAdjustmentOperation (adjustmentData : adjustment_data) (e : env)
  : M op_result :=
  selectedIds <- gets selectedItems ;;
  '(completed, errors) <-
    stockLoop adjustmentData e (length selectedIds) selectedIds 0 0 [] ;;
  ret {| success := length errors =? 0;
         completed := completed;
         total := length selectedIds;
         errors := errors |}.

(** The [adjustmentData] object literal ([location_id || null]). *)
Definition readAdjustmentData (formData : FormData) : adjustment_data :=
  {| adjustment_type := get formData "adjustment_type";
     quantity := get formData "quantity";
     location_id := match get formData "location_id" with
                    | Some EmptyString => None
                    | o => o
                    end;
     reason := get formData "reason";
     notes := get formData "notes" |}.

(** [executeBulkStockAdjustment(formData)]. *)
Definition executeBulkStockAdjustment (formData : FormData) (e : env) : M unit :=
  let adjustmentData := readAdjustmentData formData in
  modify_page (set_stockModalOpen false) ;;
  executeOperation "Bulk Stock Adjustment"
                   (stockAdjustmentOperation adjustmentData e) ;;
  refreshProductList.

(* ------------------------------------------------------------------ *)
(** ** Bulk activate / deactivate *)

Definition activateOperation (activate : bool) (e : env) : M op_result :=
  selectedIds <- gets selectedItems ;;
  let batchSize := 20 in
  '(completed, errors) <-
    batchLoop (length selectedIds) batchSize
              (fun batch => PostBulkActivate batch activate)
              (if activate then "Activated" else "Deactivated") e
              selectedIds 0 0 0 [] ;;
  ret {| success := length errors =? 0;
         completed := completed;
         total := length selectedIds;
         errors := errors |}.

(** [bulkActivateDeactivate(activate)]. *)
Definition bulkActivateDeactivate (activate : bool) (e : env) : M unit :=
  let title := if activate then "Bulk Activate Products"
               else "Bulk Deactivate Products" in
  if negb (confirm_answer e) then ret tt
  else
    executeOperation title (activateOperation activate e) ;;
    refreshProductList.

(* ------------------------------------------------------------------ *)
(** ** Export, modals, dispatch *)

(** [exportSelected]: one form POST with every selected id. *)
Definition exportSelected : M unit :=
  selectedIds <- gets selectedItems ;;
  fetch (PostExport selectedIds) ;;
  showAlert (template ["Export started for "; show_nat (length selectedIds);
                       " products"]) AlertSuccess.

(** [loadSelectOptions]: categories, then suppliers; a failed request ends the
    [try] block. *)
Definition loadSelectOptions (e : env) : M unit :=
  fetch GetCategories ;;
  if lookup_rejected e GetCategories then ret tt
  else fetch GetSuppliers.

Definition loadLocations : M unit := fetch GetLocations.

(** [showBulkUpdateModal] and [showStockAdjustmentModal]: the form is
    inserted, its options are loaded, the modal is shown.  Submitting it
    calls [executeBulkUpdate] / [executeBulkStockAdjustment]. *)
Definition showBulkUpdateModal (e : env) : M unit :=
  loadSelectOptions e ;;
  modify_page (set_updateModalOpen true).

Definition showStockAdjustmentModal : M unit :=
  loadLocations ;;
  modify_page (set_stockModalOpen true).

(** [handleBulkAction(action, button)].  The button is disabled before the
    [switch] and restored in its [finally]; it is left out of the world. *)
Definition handleBulkAction (action : string) (e : env) : M unit :=
  inProgress <- gets operationInProgress ;;
  if inProgress then
    showAlert "Another operation is already in progress" AlertWarning
  else
    n <- gets size ;;
    if n =? 0 then
      showAlert "Please select items first" AlertWarning
    else if String.eqb action "update" then showBulkUpdateModal e
    else if String.eqb action "adjust-stock" then showStockAdjustmentModal
    else if String.eqb action "activate" then bulkActivateDeactivate true e
    else if String.eqb action "deactivate" then bulkActivateDeactivate false e
    else if String.eqb action "export" then exportSelected
    else showAlert (template ["Unknown action: "; action]) AlertError.

(** Ctrl+U ([setupEventListeners]). *)
Definition ctrlU (e : env) : M unit :=
  n <- gets size ;;
  when (0 <? n) (showBulkUpdateModal e).

(** The bulk operations that run a batch loop. *)
Inductive bulk_operation : Type :=
| BulkUpdate (formData : FormData)
| BulkStockAdjustment (formData : FormData)
| BulkActivate (activate : bool).

Definition run_operation (op : bulk_operation) (e : env) : M unit :=
  match op with
  | BulkUpdate formData => executeBulkUpdate formData e
  | BulkStockAdjustment formData => executeBulkStockAdjustment formData e
  | BulkActivate activate => bulkActivateDeactivate activate e
  end.

(** The operation function each of them hands to [executeOperation], the
    step of its loop ([const batchSize = 10], [i++], [const batchSize = 20])
    and the request it sends for a batch. *)
Definition operationFunc (op : bulk_operation) (e : env) : M op_result :=
  match op with
  | BulkUpdate formData => bulkUpdateOperation (parseUpdateFormData formData) e
  | BulkStockAdjustment formData =>
      stockAdjustmentOperation (readAdjustmentData formData) e
  | BulkActivate activate => activateOperation activate e
  end.

Definition batchSize (op : bulk_operation) : nat :=
  match op with
  | BulkUpdate _ => 10
  | BulkStockAdjustment _ => 1
  | BulkActivate _ => 20
  end.

Definition request_for (op : bulk_operation) (batch : list item_id) : request :=
  match op with
  | BulkUpdate formData => PostBulkUpdate batch (parseUpdateFormData formData)
  | BulkStockAdjustment formData =>
      PostAdjustStock (hd "" batch) (readAdjustmentData formData)
  | BulkActivate activate => PostBulkActivate batch activate
  end.

(** The ids a request carries. *)
Definition batch_of (r : request) : list item_id :=
  match r with
  | PostBulkUpdate product_ids _ => product_ids
  | PostAdjustStock product_id _ => [product_id]
  | PostBulkActivate product_ids _ => product_ids
  | PostExport product_ids => product_ids
  | GetCategories | GetSuppliers | GetLocations => []
  end.

(* ------------------------------------------------------------------ *)
(** ** Vocabulary of the properties *)

(** The batches a loop with step [B] cuts out of an array, one per unit of
    fuel; [chunks] gives it the fuel the operations pass to [batchLoop]. *)
Fixpoint chunks_fuel {A : Type} (fuel B : nat) (l : list A) : list (list A) :=
  match fuel, l with
  | 0, _ => []
  | _, [] => []
  | S fuel', _ => firstn B l :: chunks_fuel fuel' B (skipn B l)
  end.

Definition chunks {A : Type} (B : nat) (l : list A) : list (list A) :=
  chunks_fuel (length l) B l.

(** ceil(n / B). *)
Definition ceil_div (n B : nat) : nat := (n + B - 1) / B.

(** The reply reports success. *)
Definition succeeded (r : response) : bool :=
  match r with
  | Rejected _ => false
  | Replied result => r_success result
  end.

(** The messages a batch loop collects for a reply. *)
Definition batch_messages (r : response) : list string :=
  match r with
  | Rejected message => [template ["Batch error: "; message]]
  | Replied result =>
      if r_success result then []
      else match r_errors result with
           | Some reported => reported
           | None => ["Unknown error in batch"]
           end
  end.

(** The messages the stock loop collects for a reply about [productId]. *)
Definition item_messages (productId : item_id) (r : response) : list string :=
  match r with
  | Rejected message => [template ["Product "; productId; ": "; message]]
  | Replied result =>
      if r_success result then []
      else [template ["Product "; productId; ": "; show_error (r_error result)]]
  end.

(** Items counted, messages collected and progress callbacks made for the
    batches [cs], the first of which is answered by reply number [k]. *)
Fixpoint completed_of (cs : list (list item_id)) (e : env) (k : nat) : nat :=
  match cs with
  | [] => 0
  | c :: cs' =>
      (if succeeded (response_of e k) then length c else 0)
      + completed_of cs' e (S k)
  end.

Fixpoint errors_of (msgs : list item_id -> response -> list string)
    (cs : list (list item_id)) (e : env) (k : nat) : list string :=
  match cs with
  | [] => []
  | c :: cs' => msgs c (response_of e k) ++ errors_of msgs cs' e (S k)
  end.

Fixpoint calls_of (verb : string) (total : nat) (cs : list (list item_id))
    (e : env) (k : nat) (completed : nat) : list (nat * nat * string) :=
  match cs with
  | [] => []
  | c :: cs' =>
      if succeeded (response_of e k) then
        (completed + length c, total,
         template [verb; " "; show_nat (completed + length c); " of ";
                   show_nat total; " products"])
          :: calls_of verb total cs' e (S k) (completed + length c)
      else calls_of verb total cs' e (S k) completed
  end.

(** What a running loop never writes: the selection, the page outside the
    progress modal, the title of the operation, the refresh counter. *)
Definition loop_frame (w w' : world) : Prop :=
  selectedItems w' = selectedItems w /\
  page w' = page w /\
  currentOperation w' = currentOperation w /\
  refreshes w' = refreshes w.

(** The one-item batches of the stock loop, and the messages it collects for
    the items [rest], the first of which is answered by reply number [k]. *)
Definition singletons (l : list item_id) : list (list item_id) :=
  map (fun x => [x]) l.

Fixpoint item_errors_of (rest : list item_id) (e : env) (k : nat) : list string :=
  match rest with
  | [] => []
  | productId :: rest' =>
      item_messages productId (response_of e k) ++ item_errors_of rest' e (S k)
  end.

(** The messages a bulk operation collects for a reply about [batch], and the
    first word of its progress messages. *)
Definition messages_for (op : bulk_operation) (batch : list item_id)
    (r : response) : list string :=
  match op with
  | BulkStockAdjustment _ => item_messages (hd "" batch) r
  | _ => batch_messages r
  end.

Definition verb_of (op : bulk_operation) : string :=
  match op with
  | BulkUpdate _ => "Updated"
  | BulkStockAdjustment _ => "Adjusted"
  | BulkActivate activate => if activate then "Activated" else "Deactivated"
  end.

(** The completed count a callback reports. *)
Definition reported (call : nat * nat * string) : nat := fst (fst call).

(** Whether the invocation gets past its own checks (a checked field, a
    confirmed dialog). *)
Definition starts (op : bulk_operation) (e : env) : bool :=
  match op with
  | BulkUpdate formData =>
      negb (length (fields (parseUpdateFormData formData)) =? 0)
  | BulkStockAdjustment _ => true
  | BulkActivate _ => confirm_answer e
  end.

(** Cancel is never clicked during the run. *)
Definition never_cancelled (e : env) : Prop :=
  forall s, cancel_clicked e s = false.

(** No reply reports a failure with an empty [errors] array. *)
Definition no_empty_error_list (e : env) : Prop :=
  forall k result,
    response_of e k = Replied result ->
    r_success result = false ->
    r_errors result <> Some [].

(** ** Concrete runs *)

(** A reply [{ success: true }]. *)
Definition ok_reply : response :=
  Replied {| r_success := true; r_errors := None; r_error := None |}.

(** The ids "1", ..., "n". *)
Definition ids_1_to (n : nat) : list item_id := map show_nat (seq 1 n).

(** A page whose rows [ids] are all ticked, and the manager with exactly
    these ids selected. *)
Definition page_of (ids : list item_id) : page_dom :=
  {| itemCheckboxes := map (fun i => {| value := i; checked := true |}) ids;
     selectAll := Some (true, false);
     toolbar := Some (true, length ids);
     updateModalOpen := false;
     stockModalOpen := false |}.

Definition world_with (ids : list item_id) : world :=
  set_selectedItems ids (constructed (page_of ids)).

(** An environment with the given replies and Cancel clicks; dialogs are
    confirmed and option lookups succeed. *)
Definition env_of (replies : nat -> response) (clicks : suspension -> bool) : env :=
  {| response_of := replies;
     cancel_clicked := clicks;
     confirm_answer := true;
     lookup_rejected := fun _ => false |}.

Definition no_click (s : suspension) : bool := false.

(** Every reply reports success except the second (number 1), which is
    [failure]. *)
Definition second_fails (failure : response) (k : nat) : response :=
  if k =? 1 then failure else ok_reply.

(** Cancel is clicked at the suspension point [s0] and nowhere else. *)
Definition click_at (s0 s : suspension) : bool :=
  match s0, s with
  | AwaitResponse a, AwaitResponse b => a =? b
  | Pause a, Pause b => a =? b
  | _, _ => false
  end.

(** A submitted bulk-update form with one field checked. *)
Definition category_form : FormData :=
  [("update_fields", "category"); ("category_id", "3")].

(** A submitted stock-adjustment form. *)
Definition stock_form : FormData :=
  [("adjustment_type", "add"); ("quantity", "5"); ("location_id", "");
   ("reason", "count"); ("notes", "")].

(* ------------------------------------------------------------------ *)
(** ** Start-up *)

(** [createBulkToolbar]: a hidden toolbar with a count of 0, inserted before
    the table container when the page has one. *)
Definition createBulkToolbar (containerPresent : bool) : M unit :=
  when containerPresent (modify_page (set_toolbar (Some (false, 0)))).

(** [initializeToolbar]. *)
Definition initializeToolbar (containerPresent : bool) : M unit :=
  t <- gets (fun w => toolbar (page w)) ;;
  match t with
  | None => createBulkToolbar containerPresent
  | Some _ => ret tt
  end.

(** [init]: [setupEventListeners] registers the handlers modelled above
    ([handleBulkAction], [on_selection_event], [ctrlU]), [createProgressModal]
    builds the modal [constructed] starts with, [setupSelectionHandlers] is a
    call of [updateSelectionToolbar]; then [initializeToolbar]. *)
Definition init (containerPresent : bool) : M unit :=
  updateSelectionToolbar ;;
  initializeToolbar containerPresent.

(* ------------------------------------------------------------------ *)
(** ** Vocabulary of the selection *)

(** The toolbar, when the page has one, is displayed exactly when something
    is selected, and then shows the size of the selection. *)
Definition toolbar_reflects (w : world) : Prop :=
  match toolbar (page w) with
  | None => True
  | Some (shown, label) =>
      shown = (0 <? size w) /\ (shown = true -> label = size w)
  end.

(** The header checkbox, when the page has one and has rows, is checked
    exactly when every row is ticked, and indeterminate exactly when some
    rows are ticked and some are not. *)
Definition header_reflects (w : world) : Prop :=
  match selectAll (page w), itemCheckboxes (page w) with
  | Some (isChecked, indeterminate), (_ :: _) as rows =>
      (isChecked = true <-> Forall (fun cb => checked cb = true) rows) /\
      (indeterminate = true <->
       Exists (fun cb => checked cb = true) rows /\
       Exists (fun cb => checked cb = false) rows)
  | _, _ => True
  end.

(** The ids of the ticked rows. *)
Definition ticked_ids (w : world) : list item_id :=
  map value (filter checked (itemCheckboxes (page w))).

(** The selection holds exactly the ids of the ticked rows. *)
Definition selection_matches_rows (w : world) : Prop :=
  forall x, In x (selectedItems w) <-> In x (ticked_ids w).

(** [checkbox.checked = c]. *)
Definition set_checked (c : bool) (cb : checkbox) : checkbox :=
  {| value := value cb; checked := c |}.

(** What the events keep on a page whose rows carry the ids [vals]. *)
Definition rows_invariant (vals : list item_id) (w : world) : Prop :=
  selection_matches_rows w /\
  NoDup (selectedItems w) /\
  map value (itemCheckboxes (page w)) = vals.

(** A page whose rows [ids] are all unticked. *)
Definition page_of_unticked (ids : list item_id) : page_dom :=
  {| itemCheckboxes := map (fun i => {| value := i; checked := false |}) ids;
     selectAll := Some (false, false);
     toolbar := Some (false, 0);
     updateModalOpen := false;
     stockModalOpen := false |}.

(* ------------------------------------------------------------------ *)
(** ** Vocabulary of the progress modal *)







(** The items of the batches whose reply did not report success. *)
Fixpoint failed_of (cs : list (list item_id)) (e : env) (k : nat) : nat :=
  match cs with
  | [] => 0
  | c :: cs' =>
      (if succeeded (response_of e k) then 0 else length c)
      + failed_of cs' e (S k)
  end.

(* ------------------------------------------------------------------ *)
(** ** CSRF token *)

(** [String.prototype.split(sep)] for a non-empty separator: the string is
    cut at every occurrence of [sep], scanning from the left.  [acc] is the
    piece being read, [skip] the characters of a separator still to pass. *)
Fixpoint split_from (sep s acc : string) (skip : nat) : list string :=
  match s with
  | EmptyString => [acc]
  | String ch s' =>
      match skip with
      | S skip' => split_from sep s' acc skip'
      | 0 =>
          if String.prefix sep s
          then acc :: split_from sep s' EmptyString (String.length sep - 1)
          else split_from sep s' (String.append acc (String ch EmptyString)) 0
      end
  end.

Definition split (sep s : string) : list string :=
  split_from sep s EmptyString 0.

(** [getCSRFToken]: the first row of [document.cookie] that starts with
    [csrftoken=], cut at its [=] signs, second piece; without such a row the
    [content] of the [csrf-token] meta tag, or the empty string when the page
    has no such tag.  [meta] is the tag's [content] attribute when the tag
    exists; [None] as a result stands for [undefined] or [null]. *)
Definition getCSRFToken (cookie : string) (meta : option (option string))
  : option string :=
  match find (String.prefix "csrftoken=") (split "; " cookie) with
  | Some csrfCookie => nth_error (split "=" csrfCookie) 1
  | None =>
      match meta with
      | Some content => content
      | None => Some EmptyString
      end
  end.

(** The character [c] does not occur in [s]. *)
Fixpoint no_char (c : Ascii.ascii) (s : string) : bool :=
  match s with
  | EmptyString => true
  | String a s' => negb (Ascii.eqb a c) && no_char c s'
  end.

(** The part of [s] before the first [c]. *)
Fixpoint before_char (c : Ascii.ascii) (s : string) : string :=
  match s with
  | EmptyString => EmptyString
  | String a s' =>
      if Ascii.eqb a c then EmptyString else String a (before_char c s')
  end.

(** [document.cookie] for the given rows. *)
Definition cookie_of (rows : list string) : string := String.concat "; " rows.

(* ------------------------------------------------------------------ *)
(** ** Other listeners during a run *)

(** [batchLoop] again, with the listeners of further user events ([others])
    run at each suspension point after the Cancel listener: what the user
    does on the page while a reply is awaited. *)
Fixpoint batchLoopAmid (others : suspension -> M unit) (fuel : nat)
    (batchSize : nat) (mkRequest : list item_id -> request) (verb : string)
    (e : env) (selectedIds : list item_id) (i k : nat)
    (completed : nat) (errors : list string) : M (nat * list string) :=
  if i <? length selectedIds then
    match fuel with
    | 0 => diverge
    | S fuel' =>
        let batch := slice selectedIds i (i + batchSize) in
        fetch (mkRequest batch) ;;
        suspended e (AwaitResponse k) ;;
        others (AwaitResponse k) ;;
        '(completed', errors') <-
          settleBatch verb (length selectedIds) batch (response_of e k)
                      completed errors ;;
        batchLoopAmid others fuel' batchSize mkRequest verb e selectedIds
                      (i + batchSize) (S k) completed' errors'
    end
  else ret (completed, errors).

(** [bulkActivateDeactivate] with such listeners. *)
Definition activateOperationAmid (others : suspension -> M unit)
    (activate : bool) (e : env) : M op_result :=
  selectedIds <- gets selectedItems ;;
  let batchSize := 20 in
  '(completed, errors) <-
    batchLoopAmid others (length selectedIds) batchSize
                  (fun batch => PostBulkActivate batch activate)
                  (if activate then "Activated" else "Deactivated") e
                  selectedIds 0 0 0 [] ;;
  ret {| success := length errors =? 0;
         completed := completed;
         total := length selectedIds;
         errors := errors |}.

Definition bulkActivateDeactivateAmid (others : suspension -> M unit)
    (activate : bool) (e : env) : M unit :=
  let title := if activate then "Bulk Activate Products"
               else "Bulk Deactivate Products" in
  if negb (confirm_answer e) then ret tt
  else
    executeOperation title (activateOperationAmid others activate e) ;;
    refreshProductList.

(** No other listener runs. *)
Definition nothing_else (s : suspension) : M unit := ret tt.

(** While the reply to the first request is awaited, the user presses Ctrl+U
    and submits the update form with one field checked. *)
Definition ctrlU_then_submit (e : env) (s : suspension) : M unit :=
  match s with
  | AwaitResponse 0 => ctrlU e ;; executeBulkUpdate category_form e
  | _ => ret tt
  end.

(** While the reply to the second request is awaited, the user clicks the
    Export button of the toolbar. *)
Definition export_during_second (e : env) (s : suspension) : M unit :=
  match s with
  | AwaitResponse 1 => handleBulkAction "export" e
  | _ => ret tt
  end.

(* ------------------------------------------------------------------ *)
(** * Properties *)

(** ** Chunks *)

Lemma ceil_div_0 B : 0 < B -> ceil_div 0 B = 0.
Proof.
  intros HB. unfold ceil_div. apply Nat.div_small. lia.
Qed.

Lemma ceil_div_step n B :
  0 < B -> 0 < n -> ceil_div n B = S (ceil_div (n - B) B).
Proof.
  intros HB Hn. unfold ceil_div.
  destruct (le_lt_dec B n) as [Hle | Hlt].
  - replace (n + B - 1) with ((n - B + B - 1) + 1 * B) by lia.
    rewrite Nat.div_add by lia. lia.
  - replace (n - B) with 0 by lia.
    rewrite (Nat.div_small (0 + B - 1)) by lia.
    symmetry. apply Nat.div_unique with (r := n - 1); lia.
Qed.

(** [ceil_div n B] is the least number of chunks of size [B] that hold [n]
    items. *)
Lemma ceil_div_spec n B :
  0 < B -> n <= ceil_div n B * B /\ ceil_div n B * B < n + B.
Proof.
  intros HB. unfold ceil_div.
  pose proof (Nat.div_mod_eq (n + B - 1) B) as E.
  pose proof (Nat.mod_upper_bound (n + B - 1) B ltac:(lia)) as U.
  nia.
Qed.

Section Chunks.
Context {A : Type}.
Variable B : nat.
Hypothesis B_pos : 0 < B.

Lemma chunks_fuel_length (fuel : nat) : forall l : list A,
  length l <= fuel ->
  length (chunks_fuel fuel B l) = ceil_div (length l) B.
Proof.
  induction fuel as [| fuel IH]; intros l Hl.
  - destruct l; [| simpl in Hl; lia]. simpl. now rewrite ceil_div_0.
  - destruct l as [| a l].
    + simpl. now rewrite ceil_div_0.
    + cbn [chunks_fuel].
      change (length (firstn B (a :: l) :: chunks_fuel fuel B (skipn B (a :: l))))
        with (S (length (chunks_fuel fuel B (skipn B (a :: l))))).
      rewrite IH by (rewrite length_skipn; cbn [length] in *; lia).
      rewrite length_skipn.
      symmetry. apply ceil_div_step; [exact B_pos | cbn [length]; lia].
Qed.

Lemma chunks_fuel_concat (fuel : nat) : forall l : list A,
  length l <= fuel -> concat (chunks_fuel fuel B l) = l.
Proof.
  induction fuel as [| fuel IH]; intros l Hl.
  - destruct l; [reflexivity | simpl in Hl; lia].
  - destruct l as [| a l]; [reflexivity |].
    cbn [chunks_fuel concat].
    rewrite IH by (rewrite length_skipn; cbn [length] in *; lia).
    apply firstn_skipn.
Qed.

Lemma chunks_fuel_sizes (fuel : nat) : forall l : list A,
  Forall (fun c => 1 <= length c <= B) (chunks_fuel fuel B l).
Proof.
  induction fuel as [| fuel IH]; intros l; [constructor |].
  destruct l as [| a l]; [constructor |].
  cbn [chunks_fuel]. constructor; [| apply IH].
  rewrite length_firstn. cbn [length]. lia.
Qed.

(** Every chunk but the last one is full. *)
Lemma chunks_fuel_full (fuel : nat) : forall (l : list A) (j : nat),
  S j < length (chunks_fuel fuel B l) ->
  length (nth j (chunks_fuel fuel B l) []) = B.
Proof.
  induction fuel as [| fuel IH]; intros l j Hj; [simpl in Hj; lia |].
  destruct l as [| a l]; [simpl in Hj; lia |].
  cbn [chunks_fuel] in *. cbn [length] in Hj.
  destruct j as [| j].
  - cbn [nth]. rewrite length_firstn.
    destruct (le_lt_dec B (length (a :: l))) as [Hle | Hlt]; [lia |].
    exfalso.
    rewrite skipn_all2 in Hj by lia.
    destruct fuel; simpl in Hj; lia.
  - cbn [nth]. apply IH. lia.
Qed.

(** More fuel than items changes nothing. *)
Lemma chunks_fuel_more (f1 : nat) : forall (f2 : nat) (l : list A),
  length l <= f1 -> length l <= f2 ->
  chunks_fuel f1 B l = chunks_fuel f2 B l.
Proof.
  induction f1 as [| f1 IH]; intros f2 l H1 H2.
  - destruct l; [| cbn [length] in H1; lia]. now destruct f2.
  - destruct l as [| a l]; [now destruct f2 |].
    destruct f2 as [| f2]; [cbn [length] in H2; lia |].
    cbn [chunks_fuel]. f_equal.
    apply IH; rewrite length_skipn; cbn [length] in *; lia.
Qed.

Lemma chunks_fuel_enough (fuel : nat) (l : list A) :
  length l <= fuel -> chunks_fuel fuel B l = chunks B l.
Proof.
  intros Hl. unfold chunks. now apply chunks_fuel_more.
Qed.
End Chunks.

(** ** Footprints *)

Lemma loop_frame_refl w : loop_frame w w.
Proof. repeat split. Qed.

Lemma loop_frame_trans w1 w2 w3 :
  loop_frame w1 w2 -> loop_frame w2 w3 -> loop_frame w1 w3.
Proof.
  unfold loop_frame. intros (?&?&?&?) (?&?&?&?). repeat split; congruence.
Qed.

#[local] Hint Resolve loop_frame_refl : core.

(** A suspension point: the Cancel handler, when it runs, touches the
    in-progress flag, the status line, the two buttons and the alerts. *)
Lemma suspended_run e s w :
  exists w',
    suspended e s w = Some (tt, w') /\
    network w' = network w /\
    progressCalls w' = progressCalls w /\
    successCount (progressDom w') = successCount (progressDom w) /\
    loop_frame w w'.
Proof.
  unfold suspended, cancelCurrentOperation, bind, gets, when.
  destruct (cancel_clicked e s && cancelShown (progressDom w)).
  - destruct (operationInProgress w); eexists; (split; [reflexivity |]);
      repeat split.
  - eexists; (split; [reflexivity |]); repeat split.
Qed.

(** The reply to one batch: a success counts the batch and reports progress,
    a failure adds its messages. *)
Lemma settleBatch_run verb total batch r c errs w :
  exists w',
    settleBatch verb total batch r c errs w
    = Some ((c + (if succeeded r then length batch else 0),
             errs ++ batch_messages r), w') /\
    network w' = network w /\
    progressCalls w'
    = progressCalls w
      ++ (if succeeded r
          then [(c + length batch, total,
                 template [verb; " "; show_nat (c + length batch); " of ";
                           show_nat total; " products"])]
          else []) /\
    (successCount (progressDom w) = c ->
     successCount (progressDom w')
     = c + (if succeeded r then length batch else 0)) /\
    loop_frame w w'.
Proof.
  destruct r as [message | result]; cbn [settleBatch succeeded batch_messages].
  - eexists. split; [unfold ret; rewrite Nat.add_0_r; reflexivity |].
    rewrite app_nil_r, Nat.add_0_r. auto.
  - destruct (r_success result).
    + eexists. split.
      * unfold bind, progress_update, modify_progress, modify, ret.
        rewrite app_nil_r. reflexivity.
      * repeat split.
    + eexists. split; [unfold ret; rewrite Nat.add_0_r; reflexivity |].
      rewrite app_nil_r, Nat.add_0_r. auto.
Qed.

Section BatchLoop.
Variable B : nat.
Hypothesis B_pos : 0 < B.
Variable mkRequest : list item_id -> request.
Variable verb : string.
Variable e : env.
Variable ids : list item_id.

Lemma slice_step i : slice ids i (i + B) = firstn B (skipn i ids).
Proof. unfold slice. f_equal. lia. Qed.

(** The loop returns, with the tally, the requests and the progress
    callbacks of the batches from index [i] on. *)
Lemma batchLoop_run (fuel : nat) : forall i k c errs w,
  length ids - i <= fuel ->
  let cs := chunks_fuel fuel B (skipn i ids) in
  exists w',
    batchLoop fuel B mkRequest verb e ids i k c errs w
    = Some ((c + completed_of cs e k,
             errs ++ errors_of (fun _ => batch_messages) cs e k), w') /\
    network w' = network w ++ map mkRequest cs /\
    progressCalls w' = progressCalls w ++ calls_of verb (length ids) cs e k c /\
    (successCount (progressDom w) = c ->
     successCount (progressDom w') = c + completed_of cs e k) /\
    loop_frame w w'.
Proof.
  induction fuel as [| fuel IH]; intros i k c errs w Hfuel cs.
  - subst cs. cbn [chunks_fuel batchLoop].
    replace (i <? length ids) with false by (symmetry; apply Nat.ltb_ge; lia).
    exists w. cbn. rewrite Nat.add_0_r, !app_nil_r. auto.
  - destruct (Nat.ltb_spec i (length ids)) as [Hlt | Hge].
    + assert (Hne : skipn i ids <> []).
      { intros E. apply (f_equal (@length _)) in E.
        rewrite length_skipn in E. cbn in E. lia. }
      subst cs. cbn [batchLoop].
      replace (i <? length ids) with true by (symmetry; apply Nat.ltb_lt; lia).
      destruct (skipn i ids) as [| a rest] eqn:Eskip; [congruence |].
      cbn [chunks_fuel]. rewrite <- Eskip.
      rewrite slice_step.
      set (batch := firstn B (skipn i ids)).
      unfold bind at 1. unfold fetch at 1. unfold modify at 1.
      unfold bind at 1.
      destruct (suspended_run e (AwaitResponse k)
                  (push_request (mkRequest batch) w))
        as (w1 & E1 & N1 & P1 & S1 & F1).
      rewrite E1.
      unfold bind at 1.
      destruct (settleBatch_run verb (length ids) batch (response_of e k)
                  c errs w1) as (w2 & E2 & N2 & P2 & S2 & F2).
      rewrite E2.
      destruct (IH (i + B) (S k)
                  (c + (if succeeded (response_of e k) then length batch else 0))
                  (errs ++ batch_messages (response_of e k)) w2)
        as (w3 & E3 & N3 & P3 & S3 & F3); [lia |].
      replace (skipn (i + B) ids) with (skipn B (skipn i ids)) in *
        by (rewrite skipn_skipn; f_equal; lia).
      exists w3. split; [| split; [| split; [| split]]].
      * rewrite E3. cbn [completed_of errors_of].
        rewrite <- app_assoc, Nat.add_assoc. reflexivity.
      * rewrite N3, N2, N1. cbn. now rewrite <- app_assoc.
      * rewrite P3, P2, P1. cbn [calls_of].
        destruct (succeeded (response_of e k)).
        -- now rewrite <- app_assoc.
        -- now rewrite app_nil_r, Nat.add_0_r.
      * intros Hc. cbn [completed_of]. rewrite Nat.add_assoc.
        apply S3, S2. rewrite S1. exact Hc.
      * apply loop_frame_trans with w2; [| exact F3].
        apply loop_frame_trans with w1; [| exact F2].
        destruct F1 as (?&?&?&?). repeat split; assumption.
    + subst cs. rewrite skipn_all2 by lia.
      cbn [chunks_fuel batchLoop].
      replace (i <? length ids) with false by (symmetry; apply Nat.ltb_ge; lia).
      exists w. cbn. rewrite Nat.add_0_r, !app_nil_r. auto.
Qed.
End BatchLoop.

(** ** The stock loop *)

Lemma settleItem_run total productId r c errs w :
  exists w',
    settleItem total productId r c errs w
    = Some ((c + (if succeeded r then 1 else 0),
             errs ++ item_messages productId r), w') /\
    network w' = network w /\
    progressCalls w'
    = progressCalls w
      ++ (if succeeded r
          then [(c + 1, total,
                 template ["Adjusted"; " "; show_nat (c + 1); " of ";
                           show_nat total; " products"])]
          else []) /\
    (successCount (progressDom w) = c ->
     successCount (progressDom w') = c + (if succeeded r then 1 else 0)) /\
    loop_frame w w'.
Proof.
  destruct r as [message | result]; cbn [settleItem succeeded item_messages].
  - eexists. split; [unfold ret; rewrite Nat.add_0_r; reflexivity |].
    rewrite app_nil_r, Nat.add_0_r. auto.
  - destruct (r_success result).
    + eexists. split.
      * unfold bind, progress_update, modify_progress, modify, ret.
        rewrite app_nil_r, Nat.add_1_r. reflexivity.
      * rewrite Nat.add_1_r. repeat split.
    + eexists. split; [unfold ret; rewrite Nat.add_0_r; reflexivity |].
      rewrite app_nil_r, Nat.add_0_r. auto.
Qed.

Section StockLoop.
Variable adjustmentData : adjustment_data.
Variable e : env.
Variable n : nat.

Lemma stockLoop_run (rest : list item_id) : forall i c errs w,
  exists w',
    stockLoop adjustmentData e n rest i c errs w
    = Some ((c + completed_of (singletons rest) e i,
             errs ++ item_errors_of rest e i), w') /\
    network w'
    = network w ++ map (fun x => PostAdjustStock x adjustmentData) rest /\
    progressCalls w'
    = progressCalls w ++ calls_of "Adjusted" n (singletons rest) e i c /\
    (successCount (progressDom w) = c ->
     successCount (progressDom w') = c + completed_of (singletons rest) e i) /\
    loop_frame w w'.
Proof.
  induction rest as [| productId rest IH]; intros i c errs w.
  - exists w. cbn. rewrite Nat.add_0_r, !app_nil_r. auto.
  - cbn [stockLoop].
    unfold bind at 1. unfold progress_updateCurrent at 1.
    unfold modify_progress at 1. unfold modify at 1.
    unfold bind at 1. unfold fetch at 1. unfold modify at 1.
    unfold bind at 1.
    match goal with
    | |- context [suspended e (AwaitResponse i) ?w0] =>
        destruct (suspended_run e (AwaitResponse i) w0)
          as (w1 & E1 & N1 & P1 & S1 & F1)
    end.
    rewrite E1. unfold bind at 1.
    destruct (settleItem_run n productId (response_of e i) c errs w1)
      as (w2 & E2 & N2 & P2 & S2 & F2).
    rewrite E2. unfold bind at 1.
    destruct (suspended_run e (Pause i) w2) as (w3 & E3 & N3 & P3 & S3 & F3).
    rewrite E3.
    destruct (IH (S i)
                (c + (if succeeded (response_of e i) then 1 else 0))
                (errs ++ item_messages productId (response_of e i)) w3)
      as (w4 & E4 & N4 & P4 & S4 & F4).
    exists w4. split; [| split; [| split; [| split]]].
    + rewrite E4. cbn [singletons map completed_of item_errors_of length].
      rewrite <- app_assoc, Nat.add_assoc. reflexivity.
    + rewrite N4, N3, N2, N1. cbn. now rewrite <- app_assoc.
    + rewrite P4, P3, P2, P1. cbn [singletons map calls_of length].
      destruct (succeeded (response_of e i)).
      * now rewrite <- app_assoc.
      * now rewrite app_nil_r, Nat.add_0_r.
    + intros Hc. cbn [singletons map completed_of length].
      rewrite Nat.add_assoc.
      apply S4. rewrite S3. apply S2. rewrite S1. exact Hc.
    + apply loop_frame_trans with w3; [| exact F4].
      apply loop_frame_trans with w2; [| exact F3].
      apply loop_frame_trans with w1; [| exact F2].
      destruct F1 as (?&?&?&?). repeat split; assumption.
Qed.
End StockLoop.

(** ** The operation functions *)

Lemma chunks_1 (l : list item_id) : chunks 1 l = singletons l.
Proof.
  unfold chunks.
  induction l as [| a l IH]; [reflexivity |].
  cbn [length chunks_fuel firstn skipn singletons map]. now rewrite IH.
Qed.

Lemma item_errors_of_singletons fd (l : list item_id) e k :
  item_errors_of l e k
  = errors_of (messages_for (BulkStockAdjustment fd)) (singletons l) e k.
Proof.
  revert k. induction l as [| a l IH]; intros k; [reflexivity |].
  cbn [item_errors_of singletons map errors_of messages_for hd].
  f_equal. apply IH.
Qed.

Lemma errors_of_ext msgs msgs' cs e k :
  (forall c r, msgs c r = msgs' c r) ->
  errors_of msgs cs e k = errors_of msgs' cs e k.
Proof.
  intros H. revert k. induction cs as [| c cs IH]; intros k; [reflexivity |].
  cbn [errors_of]. now rewrite H, IH.
Qed.

(** What an operation function does from a world [w]: it returns, having
    sent one request per chunk of the selection, with the tally of the
    replies. *)
Lemma operationFunc_run (op : bulk_operation) (e : env) (w : world) :
  let cs := chunks (batchSize op) (selectedItems w) in
  let errs := errors_of (messages_for op) cs e 0 in
  exists w',
    operationFunc op e w
    = Some ({| success := length errs =? 0;
               completed := completed_of cs e 0;
               total := size w;
               errors := errs |}, w') /\
    network w' = network w ++ map (request_for op) cs /\
    progressCalls w'
    = progressCalls w ++ calls_of (verb_of op) (size w) cs e 0 0 /\
    (successCount (progressDom w) = 0 ->
     successCount (progressDom w') = completed_of cs e 0) /\
    loop_frame w w'.
Proof.
  destruct op as [fd | fd | activate]; cbn zeta;
    cbn [operationFunc batchSize request_for verb_of].
  - unfold bulkUpdateOperation. unfold bind at 1. unfold gets at 1.
    unfold bind at 1.
    destruct (batchLoop_run 10 ltac:(lia)
                (fun batch => PostBulkUpdate batch (parseUpdateFormData fd))
                "Updated" e (selectedItems w)
                (length (selectedItems w)) 0 0 0 [] w ltac:(lia))
      as (w' & E & N & P & S & F).
    cbn zeta in E, N, P, S. rewrite skipn_0 in E, N, P, S.
    rewrite chunks_fuel_enough in E, N, P, S by lia.
    rewrite E. exists w'. cbn [app Nat.add].
    split; [| auto].
    unfold ret. repeat f_equal;
      apply errors_of_ext; reflexivity.
  - unfold stockAdjustmentOperation. unfold bind at 1. unfold gets at 1.
    unfold bind at 1.
    destruct (stockLoop_run (readAdjustmentData fd) e (length (selectedItems w))
                (selectedItems w) 0 0 [] w)
      as (w' & E & N & P & S & F).
    rewrite chunks_1.
    rewrite E. exists w'. cbn [app Nat.add].
    split; [| split; [| auto]].
    + unfold ret. rewrite (item_errors_of_singletons fd). reflexivity.
    + rewrite N. f_equal. unfold singletons. rewrite map_map. reflexivity.
  - unfold activateOperation. unfold bind at 1. unfold gets at 1.
    unfold bind at 1.
    destruct (batchLoop_run 20 ltac:(lia)
                (fun batch => PostBulkActivate batch activate)
                (if activate then "Activated" else "Deactivated")
                e (selectedItems w)
                (length (selectedItems w)) 0 0 0 [] w ltac:(lia))
      as (w' & E & N & P & S & F).
    cbn zeta in E, N, P, S. rewrite skipn_0 in E, N, P, S.
    rewrite chunks_fuel_enough in E, N, P, S by lia.
    rewrite E. exists w'. cbn [app Nat.add].
    split; [| auto].
    unfold ret. repeat f_equal;
      apply errors_of_ext; reflexivity.
Qed.

(** ** The tally *)

Lemma completed_of_le cs e k : completed_of cs e k <= length (concat cs).
Proof.
  revert k. induction cs as [| c cs IH]; intros k; [apply Nat.le_refl |].
  cbn [completed_of concat]. rewrite length_app.
  specialize (IH (S k)).
  destruct (succeeded (response_of e k)); lia.
Qed.

(** Every item is counted exactly when every reply reports success. *)
Lemma completed_of_total_iff cs e k :
  Forall (fun c => 1 <= length c) cs ->
  completed_of cs e k = length (concat cs)
  <-> (forall j, j < length cs -> succeeded (response_of e (k + j)) = true).
Proof.
  intros Hne. revert k.
  induction Hne as [| c cs Hc Hne IH]; intros k.
  - split; [intros _ j Hj; cbn in Hj; lia | reflexivity].
  - cbn [completed_of concat length]. rewrite length_app.
    pose proof (completed_of_le cs e (S k)) as Hle.
    specialize (IH (S k)).
    split.
    + intros Heq j Hj.
      destruct (succeeded (response_of e k)) eqn:Ek; [| lia].
      destruct j as [| j]; [now rewrite Nat.add_0_r |].
      replace (k + S j) with (S k + j) by lia.
      apply IH; lia.
    + intros Hall.
      assert (E0 : succeeded (response_of e k) = true)
        by (specialize (Hall 0 ltac:(lia)); now rewrite Nat.add_0_r in Hall).
      rewrite E0. f_equal. apply IH. intros j Hj.
      replace (S k + j) with (k + S j) by lia. apply Hall. lia.
Qed.

Lemma messages_for_succeeded op c r :
  succeeded r = true -> messages_for op c r = [].
Proof.
  destruct r as [m | result]; cbn [succeeded]; [discriminate |].
  intros E. destruct op; cbn [messages_for batch_messages item_messages];
    now rewrite E.
Qed.

Lemma errors_of_all_succeeded op cs e k :
  (forall j, j < length cs -> succeeded (response_of e (k + j)) = true) ->
  errors_of (messages_for op) cs e k = [].
Proof.
  revert k. induction cs as [| c cs IH]; intros k Hall; [reflexivity |].
  cbn [errors_of].
  rewrite messages_for_succeeded
    by (specialize (Hall 0 ltac:(cbn; lia)); now rewrite Nat.add_0_r in Hall).
  apply IH. intros j Hj.
  replace (S k + j) with (k + S j) by lia. apply Hall. cbn. lia.
Qed.

(** ** Progress callbacks *)

Lemma calls_of_bounds verb n cs e : forall k c,
  Forall (fun call => c <= reported call <= c + length (concat cs)
                      /\ snd (fst call) = n)
         (calls_of verb n cs e k c).
Proof.
  induction cs as [| ch cs IH]; intros k c; [constructor |].
  cbn [calls_of concat]. rewrite length_app.
  destruct (succeeded (response_of e k)).
  - constructor.
    + unfold reported. cbn. lia.
    + eapply Forall_impl; [| apply IH]. cbn beta. intros call. lia.
  - eapply Forall_impl; [| apply IH]. cbn beta. intros call. lia.
Qed.

Lemma calls_of_sorted verb n cs e : forall k c,
  StronglySorted (fun a b => reported a <= reported b) (calls_of verb n cs e k c).
Proof.
  induction cs as [| ch cs IH]; intros k c; [constructor |].
  cbn [calls_of].
  destruct (succeeded (response_of e k)); [| apply IH].
  constructor; [apply IH |].
  eapply Forall_impl; [| apply calls_of_bounds].
  cbn beta. intros call (H & _). unfold reported in *. cbn [fst] in *. lia.
Qed.

(** ** The operation wrapper *)

Lemma forEach_addError_run (l : list string) : forall w,
  exists w',
    forEach progress_addError l w = Some (tt, w') /\
    network w' = network w /\
    progressCalls w' = progressCalls w /\
    alerts w' = alerts w /\
    operationInProgress w' = operationInProgress w /\
    successCount (progressDom w') = successCount (progressDom w) /\
    loop_frame w w'.
Proof.
  induction l as [| err l IH]; intros w.
  - exists w. repeat split.
  - cbn [forEach]. unfold bind at 1. unfold progress_addError at 1.
    unfold modify_progress at 1. unfold modify at 1.
    match goal with
    | |- context [forEach progress_addError l ?w0] =>
        destruct (IH w0) as (w' & E & N & P & A & O & S & F)
    end.
    exists w'. split; [exact E |].
    destruct F as (?&?&?&?). repeat split; assumption.
Qed.

Lemma refreshProductList_run w :
  exists w',
    refreshProductList w = Some (tt, w') /\
    selectedItems w' = [] /\
    refreshes w' = S (refreshes w) /\
    network w' = network w /\
    progressCalls w' = progressCalls w /\
    alerts w' = alerts w /\
    progressDom w' = progressDom w /\
    operationInProgress w' = operationInProgress w /\
    currentOperation w' = currentOperation w.
Proof.
  eexists. split; [reflexivity |]. repeat split.
Qed.

(** [executeOperation] first raises the in-progress flag and resets the
    modal (the world [w0] the operation function starts from); when the
    operation function returns it logs the errors, announces the outcome and
    lowers the flag. *)
Lemma executeOperation_run title (f : M op_result) w :
  exists w0,
    (selectedItems w0 = selectedItems w /\
     network w0 = network w /\
     progressCalls w0 = progressCalls w /\
     alerts w0 = alerts w /\
     operationInProgress w0 = true /\
     currentOperation w0 = Some title /\
     successCount (progressDom w0) = 0 /\
     cancelShown (progressDom w0) = true /\
     page w0 = page w /\
     refreshes w0 = refreshes w) /\
    forall r w2,
      f w0 = Some (r, w2) ->
      exists w3,
        executeOperation title f w = Some (tt, w3) /\
        network w3 = network w2 /\
        progressCalls w3 = progressCalls w2 /\
        selectedItems w3 = selectedItems w2 /\
        page w3 = page w2 /\
        refreshes w3 = refreshes w2 /\
        currentOperation w3 = currentOperation w2 /\
        successCount (progressDom w3) = successCount (progressDom w2) /\
        operationInProgress w3 = false /\
        closeShown (progressDom w3) = true /\
        exists message,
          alerts w3
          = alerts w2
            ++ [(message, if success r then AlertSuccess else AlertWarning)].
Proof.
  eexists. split; [| intros r w2 Hf].
  2: { unfold executeOperation.
       do 5 (unfold bind at 1; cbn [modify gets modify_progress]).
       unfold bind at 1. rewrite Hf.
       unfold bind at 1.
       destruct (forEach_addError_run (errors r) w2)
         as (w' & E & N & P & A & O & S & F).
       rewrite E. destruct F as (F1 & F2 & F3 & F4).
       eexists. split; [reflexivity |].
       cbn. rewrite N, P, A, S, F1, F2, F3, F4.
       repeat split. eexists. reflexivity. }
  repeat split.
Qed.

(** ** Whole runs *)

Lemma chunks_concat (B : nat) (l : list item_id) :
  0 < B -> concat (chunks B l) = l.
Proof. intros HB. apply chunks_fuel_concat; [exact HB | apply Nat.le_refl]. Qed.

Lemma batchSize_pos op : 0 < batchSize op.
Proof. destruct op; cbn; lia. Qed.

Lemma run_operation_run (op : bulk_operation) (e : env) (w : world) :
  let cs := chunks (batchSize op) (selectedItems w) in
  exists w',
    run_operation op e w = Some (tt, w') /\
    if starts op e then
      network w' = network w ++ map (request_for op) cs /\
      progressCalls w'
      = progressCalls w ++ calls_of (verb_of op) (size w) cs e 0 0 /\
      successCount (progressDom w') = completed_of cs e 0 /\
      selectedItems w' = [] /\
      operationInProgress w' = false /\
      refreshes w' = S (refreshes w)
    else
      network w' = network w /\
      progressCalls w' = progressCalls w /\
      selectedItems w' = selectedItems w /\
      operationInProgress w' = operationInProgress w /\
      progressDom w' = progressDom w /\
      refreshes w' = refreshes w.
Proof.
  intros cs.
  assert (Hrun : forall title wa,
             selectedItems wa = selectedItems w ->
             network wa = network w ->
             progressCalls wa = progressCalls w ->
             refreshes wa = refreshes w ->
             exists w',
               (executeOperation title (operationFunc op e) ;;
                refreshProductList) wa = Some (tt, w') /\
               network w' = network w ++ map (request_for op) cs /\
               progressCalls w'
               = progressCalls w ++ calls_of (verb_of op) (size w) cs e 0 0 /\
               successCount (progressDom w') = completed_of cs e 0 /\
               selectedItems w' = [] /\
               operationInProgress w' = false /\
               refreshes w' = S (refreshes w)).
  { intros title wa Hs Hn Hp Hr.
    destruct (executeOperation_run title (operationFunc op e) wa)
      as (w0 & (S0 & N0 & P0 & _ & _ & _ & C0 & _ & _ & R0) & Hfin).
    destruct (operationFunc_run op e w0) as (w2 & E2 & N2 & P2 & S2 & F2).
    destruct (Hfin _ _ E2)
      as (w3 & E3 & N3 & P3 & S3 & _ & R3 & _ & C3 & O3 & _).
    destruct (refreshProductList_run w3)
      as (w4 & E4 & S4 & R4 & N4 & P4 & _ & D4 & O4 & _).
    exists w4. unfold bind. rewrite E3, E4.
    destruct F2 as (F21 & _ & _ & F24).
    unfold size in *. rewrite S0, Hs in *.
    split; [reflexivity |].
    repeat split; try congruence.
    - rewrite N4, N3, N2, N0, Hn. reflexivity.
    - rewrite P4, P3, P2, P0, Hp. reflexivity.
    - rewrite D4, C3. apply S2. exact C0. }
  destruct op as [fd | fd | activate]; cbn [run_operation starts].
  - unfold executeBulkUpdate.
    destruct (length (fields (parseUpdateFormData fd)) =? 0); cbn [negb].
    + eexists. split; [reflexivity |]. repeat split.
    + unfold bind at 1. unfold modify_page at 1. unfold modify at 1.
      apply Hrun; reflexivity.
  - unfold executeBulkStockAdjustment.
    unfold bind at 1. unfold modify_page at 1. unfold modify at 1.
    apply Hrun; reflexivity.
  - unfold bulkActivateDeactivate.
    destruct (confirm_answer e); cbn [negb].
    + apply Hrun; reflexivity.
    + exists w. repeat split.
Qed.

(** ** Chunking of the selection *)

Lemma batch_of_request_for op (c : list item_id) :
  1 <= length c <= batchSize op -> batch_of (request_for op c) = c.
Proof.
  destruct op; cbn [batchSize request_for batch_of]; try reflexivity.
  intros H. destruct c as [| x [| y c]]; cbn in H; try lia. reflexivity.
Qed.

Lemma chunks_sizes (B : nat) (l : list item_id) :
  0 < B -> Forall (fun c => 1 <= length c <= B) (chunks B l).
Proof. intros HB. now apply chunks_fuel_sizes. Qed.

Lemma map_batch_of_requests op (cs : list (list item_id)) :
  Forall (fun c => 1 <= length c <= batchSize op) cs ->
  map batch_of (map (request_for op) cs) = cs.
Proof.
  induction 1 as [| c cs Hc _ IH]; [reflexivity |].
  cbn [map]. now rewrite batch_of_request_for, IH.
Qed.

(** C4: every bulk operation cuts the selected ids, in order, into
    consecutive batches of its fixed size (10 for field updates, 20 for
    activate/deactivate, 1 for stock adjustments) and sends one request per
    batch; every batch but the last is full, none is empty, and there are
    ceil(|S| / B) of them. *)
Theorem C4_chunk_count (op : bulk_operation) (e : env) (w : world) :
  exists r w' reqs,
    operationFunc op e w = Some (r, w') /\
    network w' = network w ++ reqs /\
    concat (map batch_of reqs) = selectedItems w /\
    length reqs = ceil_div (size w) (batchSize op) /\
    Forall (fun q => 1 <= length (batch_of q) <= batchSize op) reqs /\
    (forall j, S j < length reqs ->
               length (nth j (map batch_of reqs) []) = batchSize op) /\
    batchSize op = match op with
                   | BulkUpdate _ => 10
                   | BulkStockAdjustment _ => 1
                   | BulkActivate _ => 20
                   end.
Proof.
  pose proof (batchSize_pos op) as HB.
  destruct (operationFunc_run op e w) as (w' & E & N & _).
  pose proof (chunks_sizes (batchSize op) (selectedItems w) HB) as Hsz.
  eexists _, w', _. split; [exact E |]. split; [exact N |].
  rewrite (map_batch_of_requests op _ Hsz), length_map.
  split; [now apply chunks_concat |].
  split; [apply chunks_fuel_length; [exact HB | apply Nat.le_refl] |].
  split.
  - apply Forall_map. eapply Forall_impl; [| exact Hsz].
    cbn beta. intros c Hc. now rewrite batch_of_request_for.
  - split; [| destruct op; reflexivity].
    intros j Hj. now apply chunks_fuel_full.
Qed.

(** ** Progress callbacks of a run *)

(** C5: in the sequence of progress callbacks of a run of any bulk operation,
    the reported completed count never decreases and never exceeds the total,
    which is the number of selected items in every callback. *)
Theorem C5_progress_monotone (op : bulk_operation) (e : env) (w : world) :
  exists w' calls,
    run_operation op e w = Some (tt, w') /\
    progressCalls w' = progressCalls w ++ calls /\
    StronglySorted (fun a b => reported a <= reported b) calls /\
    Forall (fun call => reported call <= size w /\ snd (fst call) = size w) calls.
Proof.
  destruct (run_operation_run op e w) as (w' & E & H).
  destruct (starts op e).
  - destruct H as (_ & P & _).
    eexists w', _. split; [exact E |]. split; [exact P |].
    split; [apply calls_of_sorted |].
    eapply Forall_impl; [| apply calls_of_bounds].
    cbn beta. intros call ((_ & Hle) & Ht). split; [| exact Ht].
    rewrite chunks_concat in Hle by apply batchSize_pos.
    unfold size. lia.
  - destruct H as (_ & P & _).
    exists w', []. split; [exact E |]. rewrite app_nil_r.
    split; [exact P |]. split; constructor.
Qed.

(** ** Guards *)

(** The guard of [handleBulkAction]: with the in-progress flag up it only
    shows the warning: no request leaves, no job state changes, whatever the
    action. *)
Theorem handleBulkAction_guard (action : string) (e : env) (w : world) :
  operationInProgress w = true ->
  handleBulkAction action e w
  = Some (tt, push_alert ("Another operation is already in progress",
                          AlertWarning) w)
  /\ network (push_alert ("Another operation is already in progress",
                          AlertWarning) w) = network w
  /\ progressDom (push_alert ("Another operation is already in progress",
                              AlertWarning) w) = progressDom w
  /\ progressCalls (push_alert ("Another operation is already in progress",
                                AlertWarning) w) = progressCalls w
  /\ currentOperation (push_alert ("Another operation is already in progress",
                                   AlertWarning) w) = currentOperation w.
Proof.
  intros H. unfold handleBulkAction, bind, gets. rewrite H.
  repeat split.
Qed.

Lemma handleBulkAction_guard_witness :
  operationInProgress (set_operationInProgress true (world_with (ids_1_to 3)))
  = true
  /\ handleBulkAction "activate" (env_of (fun _ => ok_reply) no_click)
       (set_operationInProgress true (world_with (ids_1_to 3)))
     = Some (tt, push_alert ("Another operation is already in progress",
                             AlertWarning)
                   (set_operationInProgress true (world_with (ids_1_to 3)))).
Proof.
  split; [reflexivity |].
  apply (handleBulkAction_guard "activate" (env_of (fun _ => ok_reply) no_click)
           (set_operationInProgress true (world_with (ids_1_to 3)))).
  reflexivity.
Defined.

(** C8: with an empty selection [handleBulkAction] only shows a warning: no
    request leaves, the progress modal and the in-progress flag stay as they
    were. *)
Theorem C8_empty_selection_guard (action : string) (e : env) (w : world) :
  selectedItems w = [] ->
  exists message,
    handleBulkAction action e w = Some (tt, push_alert (message, AlertWarning) w)
    /\ (operationInProgress w = false -> message = "Please select items first")
    /\ network (push_alert (message, AlertWarning) w) = network w
    /\ progressDom (push_alert (message, AlertWarning) w) = progressDom w
    /\ operationInProgress (push_alert (message, AlertWarning) w)
       = operationInProgress w.
Proof.
  intros H. unfold handleBulkAction. unfold bind at 1. unfold gets at 1.
  destruct (operationInProgress w) eqn:Eflag.
  - eexists. split; [reflexivity |]. split; [discriminate |].
    repeat split. exact Eflag.
  - unfold bind, gets, size. rewrite H.
    eexists. split; [reflexivity |]. repeat split. exact Eflag.
Qed.

Lemma C8_empty_selection_guard_witness :
  selectedItems (constructed (page_of (ids_1_to 3))) = []
  /\ exists message,
       handleBulkAction "update" (env_of (fun _ => ok_reply) no_click)
         (constructed (page_of (ids_1_to 3)))
       = Some (tt, push_alert (message, AlertWarning)
                     (constructed (page_of (ids_1_to 3))))
       /\ message = "Please select items first".
Proof.
  split; [reflexivity |].
  destruct (C8_empty_selection_guard "update"
              (env_of (fun _ => ok_reply) no_click)
              (constructed (page_of (ids_1_to 3))) eq_refl)
    as (message & E & M & _).
  exists message. split; [exact E | apply M; reflexivity].
Defined.

(** C10: a bulk-update form submitted with no field checked is turned down
    with a warning; nothing else changes: no request, progress modal not
    shown, selection and in-progress flag as before. *)
Theorem C10_no_field_checked (formData : FormData) (e : env) (w : world) :
  getAll formData "update_fields" = [] ->
  executeBulkUpdate formData e w
  = Some (tt, push_alert ("Please select at least one field to update",
                          AlertWarning) w)
  /\ network (push_alert ("Please select at least one field to update",
                          AlertWarning) w) = network w
  /\ progressDom (push_alert ("Please select at least one field to update",
                              AlertWarning) w) = progressDom w
  /\ selectedItems (push_alert ("Please select at least one field to update",
                                AlertWarning) w) = selectedItems w
  /\ operationInProgress (push_alert ("Please select at least one field to update",
                                      AlertWarning) w) = operationInProgress w.
Proof.
  intros H. unfold executeBulkUpdate, parseUpdateFormData. cbn [fields].
  rewrite H. repeat split.
Qed.

Lemma C10_no_field_checked_witness :
  getAll [("category_id", "3")] "update_fields" = []
  /\ executeBulkUpdate [("category_id", "3")]
       (env_of (fun _ => ok_reply) no_click) (world_with (ids_1_to 3))
     = Some (tt, push_alert ("Please select at least one field to update",
                             AlertWarning) (world_with (ids_1_to 3))).
Proof.
  split; [reflexivity |].
  apply (C10_no_field_checked [("category_id", "3")]
           (env_of (fun _ => ok_reply) no_click) (world_with (ids_1_to 3))).
  reflexivity.
Defined.

(** ** The tally of a run *)

Lemma messages_for_nil op (c : list item_id) (r : response) :
  (forall result, r = Replied result -> r_success result = false ->
                  r_errors result <> Some []) ->
  messages_for op c r = [] -> succeeded r = true.
Proof.
  intros Hr. destruct r as [m | result]; cbn [succeeded].
  - destruct op; cbn [messages_for batch_messages item_messages]; discriminate.
  - destruct (r_success result) eqn:Es; [reflexivity |].
    specialize (Hr result eq_refl Es).
    destruct op; cbn [messages_for batch_messages item_messages]; rewrite Es;
      try discriminate;
      destruct (r_errors result) as [[| m l] |]; congruence.
Qed.

Lemma errors_of_nil_all_succeeded op cs e : forall k,
  no_empty_error_list e ->
  errors_of (messages_for op) cs e k = [] ->
  forall j, j < length cs -> succeeded (response_of e (k + j)) = true.
Proof.
  induction cs as [| c cs IH]; intros k He Hnil j Hj; [cbn in Hj; lia |].
  cbn [errors_of] in Hnil. apply app_eq_nil in Hnil as (H0 & Hrest).
  destruct j as [| j].
  - rewrite Nat.add_0_r. apply (messages_for_nil op c); [| exact H0].
    intros result Hr. now apply (He k).
  - replace (k + S j) with (S k + j) by lia.
    apply IH; [exact He | exact Hrest | cbn [length] in Hj; lia].
Qed.

(** C2, as the code has it: [completed] counts the items of the batches whose
    reply reported success ([completed_of]), and is the success count the
    modal shows; it never exceeds [total] and equals it exactly when every
    reply reported success.  [errors] holds, in batch order, the messages
    collected for the replies that did not report success ([errors_of]): it
    is empty exactly when [completed] is [total], and [success] says it is
    empty.  Runs in which Cancel is clicked, or in which a reply reports a
    failure with an empty [errors] array, are left aside. *)
Theorem C2_tally (op : bulk_operation) (e : env) (w : world) :
  never_cancelled e ->
  no_empty_error_list e ->
  successCount (progressDom w) = 0 ->
  exists r w',
    operationFunc op e w = Some (r, w') /\
    total r = size w /\
    completed r = completed_of (chunks (batchSize op) (selectedItems w)) e 0 /\
    completed r <= total r /\
    successCount (progressDom w') = completed r /\
    (completed r = total r <->
     forall k, k < ceil_div (size w) (batchSize op) ->
               succeeded (response_of e k) = true) /\
    errors r
    = errors_of (messages_for op) (chunks (batchSize op) (selectedItems w)) e 0 /\
    (completed r = total r <-> errors r = []) /\
    (success r = true <-> completed r = total r) /\
    success r = (length (errors r) =? 0).
Proof.
  intros _ He H0.
  pose proof (batchSize_pos op) as HB.
  destruct (operationFunc_run op e w) as (w' & E & _ & _ & S & _).
  pose proof (chunks_sizes (batchSize op) (selectedItems w) HB) as Hsz.
  pose proof (chunks_concat (batchSize op) (selectedItems w) HB) as Hcat.
  assert (Hlen : length (chunks (batchSize op) (selectedItems w))
                 = ceil_div (size w) (batchSize op))
    by (apply chunks_fuel_length; [exact HB | apply Nat.le_refl]).
  assert (Hiff : completed_of (chunks (batchSize op) (selectedItems w)) e 0
                 = size w
                 <-> forall k, k < ceil_div (size w) (batchSize op) ->
                               succeeded (response_of e k) = true).
  { unfold size at 1. rewrite <- Hcat at 2. rewrite <- Hlen.
    apply (completed_of_total_iff _ e 0).
    eapply Forall_impl; [| exact Hsz]. cbn beta. intros c Hc. lia. }
  assert (Herr : completed_of (chunks (batchSize op) (selectedItems w)) e 0
                 = size w
                 <-> errors_of (messages_for op)
                       (chunks (batchSize op) (selectedItems w)) e 0 = []).
  { split.
    - intros Heq. apply errors_of_all_succeeded. cbn [Nat.add].
      rewrite Hlen. now apply Hiff.
    - intros Hnil. apply Hiff. rewrite <- Hlen.
      exact (errors_of_nil_all_succeeded op _ e 0 He Hnil). }
  eexists _, w'. split; [exact E |]. cbn [total completed errors success].
  split; [reflexivity |]. split; [reflexivity |].
  split.
  { unfold size. rewrite <- Hcat at 2. apply completed_of_le. }
  split; [exact (S H0) |].
  split; [exact Hiff |].
  split; [reflexivity |].
  split; [exact Herr |].
  split; [| reflexivity].
  rewrite Nat.eqb_eq, length_zero_iff_nil. symmetry. exact Herr.
Qed.

Lemma second_rejected_has_no_empty_error_list :
  no_empty_error_list
    (env_of (second_fails (Rejected "Failed to fetch")) no_click).
Proof.
  intros k result. cbn [env_of response_of]. unfold second_fails, ok_reply.
  destruct (k =? 1); [discriminate |].
  intros [= <-]. discriminate.
Defined.

Lemma C2_tally_witness :
  never_cancelled (env_of (second_fails (Rejected "Failed to fetch")) no_click)
  /\ no_empty_error_list
       (env_of (second_fails (Rejected "Failed to fetch")) no_click)
  /\ successCount (progressDom (world_with (ids_1_to 25))) = 0
  /\ exists r w',
       operationFunc (BulkUpdate category_form)
         (env_of (second_fails (Rejected "Failed to fetch")) no_click)
         (world_with (ids_1_to 25)) = Some (r, w')
       /\ completed r <= total r
       /\ successCount (progressDom w') = completed r
       /\ errors r
          = errors_of (messages_for (BulkUpdate category_form))
              (chunks 10 (ids_1_to 25))
              (env_of (second_fails (Rejected "Failed to fetch")) no_click) 0.
Proof.
  split; [intros s; reflexivity |].
  split; [exact second_rejected_has_no_empty_error_list |].
  split; [reflexivity |].
  destruct (C2_tally (BulkUpdate category_form)
              (env_of (second_fails (Rejected "Failed to fetch")) no_click)
              (world_with (ids_1_to 25)) (fun s => eq_refl)
              second_rejected_has_no_empty_error_list eq_refl)
    as (r & w' & E & _ & _ & Hle & Hs & _ & He & _).
  exists r, w'. split; [exact E |]. split; [exact Hle |].
  split; [exact Hs | exact He].
Defined.

(** C2 as stated fails: 25 items, the second batch rejected, Cancel never
    clicked.  The run ends with completed = 15 of total = 25, the modal shows
    15 successes, and one message is recorded. *)
Lemma C2_counterexample :
  exists r w',
    operationFunc (BulkUpdate category_form)
      (env_of (second_fails (Rejected "Failed to fetch")) no_click)
      (world_with (ids_1_to 25)) = Some (r, w')
    /\ successCount (progressDom w') + length (errors r) <> completed r
    /\ completed r <> total r.
Proof.
  eexists _, _. split; [vm_compute; reflexivity |].
  split; vm_compute; discriminate.
Qed.

(** ** The 25-item scenario *)

(** C3, as the code has it: 25 selected ids and a field update give three
    requests, for ids 1-10, 11-20 and 21-25.  When the second one fails and
    the others succeed, the run ends with completed = 15 of total = 25
    (two progress callbacks, 10 and 15), the messages of the one failure
    recorded (a single batch-level message when the request was rejected),
    and the third batch sent and counted. *)
Theorem C3_scenario (formData : FormData) (e : env) (w : world) :
  never_cancelled e ->
  selectedItems w = ids_1_to 25 ->
  succeeded (response_of e 0) = true ->
  succeeded (response_of e 1) = false ->
  succeeded (response_of e 2) = true ->
  exists r w',
    operationFunc (BulkUpdate formData) e w = Some (r, w') /\
    network w'
    = network w
      ++ [PostBulkUpdate (map show_nat (seq 1 10)) (parseUpdateFormData formData);
          PostBulkUpdate (map show_nat (seq 11 10)) (parseUpdateFormData formData);
          PostBulkUpdate (map show_nat (seq 21 5)) (parseUpdateFormData formData)] /\
    completed r = 15 /\
    total r = 25 /\
    errors r = batch_messages (response_of e 1) /\
    (forall message, response_of e 1 = Rejected message ->
                     errors r = [template ["Batch error: "; message]]) /\
    progressCalls w'
    = progressCalls w
      ++ [(10, 25, "Updated 10 of 25 products");
          (15, 25, "Updated 15 of 25 products")].
Proof.
  intros _ Hsel H0 H1 H2.
  destruct (operationFunc_run (BulkUpdate formData) e w)
    as (w' & E & N & P & _).
  cbn zeta in E. unfold size in *. rewrite Hsel in *.
  cbn [batchSize request_for verb_of] in *.
  set (cs := chunks 10 (ids_1_to 25)) in *.
  vm_compute in cs. subst cs.
  cbn [completed_of errors_of calls_of messages_for map length Nat.add] in *.
  rewrite H0, H1, H2 in *.
  assert (B0 : batch_messages (response_of e 0) = [])
    by exact (messages_for_succeeded (BulkUpdate formData) [] _ H0).
  assert (B2 : batch_messages (response_of e 2) = [])
    by exact (messages_for_succeeded (BulkUpdate formData) [] _ H2).
  rewrite B0, B2 in E.
  cbn [app Nat.add] in E. rewrite app_nil_r in E.
  eexists _, w'. split; [exact E |]. cbn [completed total errors].
  split; [exact N |].
  split; [reflexivity |]. split; [reflexivity |]. split; [reflexivity |].
  split; [intros message Hm; now rewrite Hm | exact P].
Qed.

Lemma C3_scenario_witness :
  never_cancelled (env_of (second_fails (Rejected "Failed to fetch")) no_click)
  /\ selectedItems (world_with (ids_1_to 25)) = ids_1_to 25
  /\ succeeded (second_fails (Rejected "Failed to fetch") 0) = true
  /\ succeeded (second_fails (Rejected "Failed to fetch") 1) = false
  /\ succeeded (second_fails (Rejected "Failed to fetch") 2) = true
  /\ exists r w',
       operationFunc (BulkUpdate category_form)
         (env_of (second_fails (Rejected "Failed to fetch")) no_click)
         (world_with (ids_1_to 25)) = Some (r, w')
       /\ completed r = 15
       /\ total r = 25
       /\ errors r = ["Batch error: Failed to fetch"].
Proof.
  split; [intros s; reflexivity |].
  repeat (split; [reflexivity |]).
  destruct (C3_scenario category_form
              (env_of (second_fails (Rejected "Failed to fetch")) no_click)
              (world_with (ids_1_to 25))
              (fun s => eq_refl) eq_refl eq_refl eq_refl eq_refl)
    as (r & w' & E & _ & Hc & Ht & _ & Hm & _).
  exists r, w'. repeat (split; [assumption |]).
  exact (Hm "Failed to fetch" eq_refl).
Defined.

(** C3 as stated fails: in that scenario, with the second request rejected,
    the three batches of sizes 10, 10 and 5 are sent, but the run ends with
    completed = 15, not 25, and with one recorded error, not ten. *)
Lemma C3_counterexample :
  exists r w',
    operationFunc (BulkUpdate category_form)
      (env_of (second_fails (Rejected "Failed to fetch")) no_click)
      (world_with (ids_1_to 25)) = Some (r, w')
    /\ map (fun q => length (batch_of q)) (network w') = [10; 10; 5]
    /\ completed r <> 25
    /\ length (errors r) <> 10.
Proof.
  eexists _, _. split; [vm_compute; reflexivity |].
  split; [vm_compute; reflexivity |].
  split; vm_compute; discriminate.
Qed.

(** ** Cancellation *)

Lemma completed_of_ext cs e e' : forall k,
  (forall j, response_of e j = response_of e' j) ->
  completed_of cs e k = completed_of cs e' k.
Proof.
  induction cs as [| c cs IH]; intros k H; [reflexivity |].
  cbn [completed_of]. now rewrite H, (IH (S k) H).
Qed.

Lemma errors_of_env_ext msgs cs e e' : forall k,
  (forall j, response_of e j = response_of e' j) ->
  errors_of msgs cs e k = errors_of msgs cs e' k.
Proof.
  induction cs as [| c cs IH]; intros k H; [reflexivity |].
  cbn [errors_of]. now rewrite H, (IH (S k) H).
Qed.

Lemma calls_of_ext verb n cs e e' : forall k c,
  (forall j, response_of e j = response_of e' j) ->
  calls_of verb n cs e k c = calls_of verb n cs e' k c.
Proof.
  induction cs as [| ch cs IH]; intros k c H; [reflexivity |].
  cbn [calls_of]. rewrite H. destruct (succeeded (response_of e' k)).
  - f_equal. now apply IH.
  - now apply IH.
Qed.

(** The loops never read what the Cancel handler writes: two runs that get
    the same replies send the same requests, make the same progress callbacks
    and end with the same tally, wherever Cancel is clicked. *)
Lemma cancel_is_never_consulted (op : bulk_operation) (e e' : env) (w : world) :
  (forall k, response_of e k = response_of e' k) ->
  exists r w1 w2,
    operationFunc op e w = Some (r, w1) /\
    operationFunc op e' w = Some (r, w2) /\
    network w1 = network w2 /\
    progressCalls w1 = progressCalls w2.
Proof.
  intros H.
  destruct (operationFunc_run op e w) as (w1 & E1 & N1 & P1 & _).
  destruct (operationFunc_run op e' w) as (w2 & E2 & N2 & P2 & _).
  eexists _, w1, w2. split; [exact E1 |].
  split.
  - rewrite E2.
    rewrite (completed_of_ext _ e e' 0 H), (errors_of_env_ext _ _ e e' 0 H).
    reflexivity.
  - split; [congruence |].
    rewrite P1, P2. f_equal. now apply calls_of_ext.
Qed.

(** C1 fails on the code.  A field update of 25 items whose replies all
    report success, with Cancel clicked while the second request is awaited
    (the first suspension point after batch 1 was processed): the handler
    announces the cancellation, yet the third batch is still sent and the run
    ends with 25 completed.  A stock adjustment of 5 items with Cancel
    clicked in the pause after the second item: items 3, 4 and 5 are still
    sent and the run ends with 5 completed. *)
Theorem C1_cancel_does_not_stop_the_loops :
  (exists w',
     executeBulkUpdate category_form
       (env_of (fun _ => ok_reply) (click_at (AwaitResponse 1)))
       (world_with (ids_1_to 25)) = Some (tt, w')
     /\ map (fun q => length (batch_of q)) (network w') = [10; 10; 5]
     /\ map reported (progressCalls w') = [10; 20; 25]
     /\ alerts w'
        = [("Operation cancelled", AlertWarning);
           ("Operation completed successfully! Processed 25 items.",
            AlertSuccess)])
  /\
  (exists w',
     executeBulkStockAdjustment stock_form
       (env_of (fun _ => ok_reply) (click_at (Pause 1)))
       (world_with (ids_1_to 5)) = Some (tt, w')
     /\ map batch_of (network w') = [["1"]; ["2"]; ["3"]; ["4"]; ["5"]]
     /\ map reported (progressCalls w') = [1; 2; 3; 4; 5]
     /\ alerts w'
        = [("Operation cancelled", AlertWarning);
           ("Operation completed successfully! Processed 5 items.",
            AlertSuccess)]).
Proof.
  split; eexists; (split; [vm_compute; reflexivity |]);
    repeat split; vm_compute; reflexivity.
Qed.

(** ** Failures *)

(** A failed batch leaves a message, unless the reply reports failure with an
    empty [errors] array. *)
Lemma batch_messages_nonempty (r : response) :
  succeeded r = false ->
  (forall result, r = Replied result -> r_errors result <> Some []) ->
  batch_messages r <> [].
Proof.
  destruct r as [message | result]; cbn [succeeded batch_messages].
  - discriminate.
  - intros -> H. specialize (H result eq_refl).
    destruct (r_errors result) as [[| m l] |]; congruence.
Qed.

(** A failed item of a stock adjustment always leaves a message. *)
Lemma item_messages_nonempty (productId : item_id) (r : response) :
  succeeded r = false -> item_messages productId r <> [].
Proof.
  destruct r as [message | result]; cbn [succeeded item_messages].
  - discriminate.
  - intros ->. discriminate.
Qed.

(** C6 fails on the code in one case.  A field update of 25 items whose
    second reply is [{ success: false, errors: [] }]: the third batch is
    still sent, but nothing is recorded for the failed one, and the run ends
    as a success with an empty error list. *)
Theorem C6_empty_error_list_is_swallowed :
  (exists w',
     operationFunc (BulkUpdate category_form)
       (env_of (second_fails
                  (Replied {| r_success := false; r_errors := Some [];
                              r_error := None |})) no_click)
       (world_with (ids_1_to 25))
     = Some ({| success := true; completed := 15; total := 25; errors := [] |},
             w')
     /\ map (fun q => length (batch_of q)) (network w') = [10; 10; 5])
  /\
  (exists w',
     executeBulkUpdate category_form
       (env_of (second_fails
                  (Replied {| r_success := false; r_errors := Some [];
                              r_error := None |})) no_click)
       (world_with (ids_1_to 25)) = Some (tt, w')
     /\ errorLog (progressDom w') = []
     /\ alerts w'
        = [("Operation completed successfully! Processed 15 items.",
            AlertSuccess)]).
Proof.
  split; eexists; (split; [vm_compute; reflexivity |]);
    repeat split; vm_compute; reflexivity.
Qed.

(** ** The selection *)

Lemma Set_has_In (s : list item_id) (x : item_id) :
  Set_has s x = true <-> In x s.
Proof.
  unfold Set_has. rewrite existsb_exists. split.
  - intros (y & Hy & E). apply String.eqb_eq in E. now subst.
  - intros H. exists x. split; [exact H | apply String.eqb_refl].
Qed.

Lemma Set_add_In (x y : item_id) (s : list item_id) :
  In y (Set_add x s) <-> y = x \/ In y s.
Proof.
  unfold Set_add. destruct (Set_has s x) eqn:E.
  - apply Set_has_In in E. split; [auto | intros [-> | H]; assumption].
  - rewrite in_app_iff. cbn. split.
    + intros [H | [H | []]]; auto.
    + intros [-> | H]; auto.
Qed.

Lemma Set_delete_In (x y : item_id) (s : list item_id) :
  In y (Set_delete x s) <-> y <> x /\ In y s.
Proof.
  unfold Set_delete. rewrite filter_In, negb_true_iff, String.eqb_neq. tauto.
Qed.

Lemma Set_add_NoDup (x : item_id) (s : list item_id) :
  NoDup s -> NoDup (Set_add x s).
Proof.
  intros H. unfold Set_add. destruct (Set_has s x) eqn:E; [exact H |].
  apply NoDup_app; [exact H | repeat constructor; intros [] |].
  intros y Hy [<- | []].
  apply Set_has_In in Hy. congruence.
Qed.

Lemma Set_delete_NoDup (x : item_id) (s : list item_id) :
  NoDup s -> NoDup (Set_delete x s).
Proof. apply NoDup_filter. Qed.

(** Adding a member and deleting a non-member change nothing. *)
Lemma Set_add_member (x : item_id) (s : list item_id) :
  In x s -> Set_add x s = s.
Proof.
  intros H. unfold Set_add. apply Set_has_In in H. now rewrite H.
Qed.

Lemma Set_delete_absent (x : item_id) (s : list item_id) :
  ~ In x s -> Set_delete x s = s.
Proof.
  intros H. unfold Set_delete.
  induction s as [| y s IH]; [reflexivity |].
  cbn [filter]. destruct (String.eqb_spec y x) as [-> | Hne].
  - exfalso. apply H. now left.
  - cbn [negb]. f_equal. apply IH. intros Hin. apply H. now right.
Qed.

Lemma handleItemSelection_run (cb : checkbox) (w : world) :
  exists w',
    handleItemSelection cb w = Some (tt, w') /\
    selectedItems w'
    = if checked cb then Set_add (value cb) (selectedItems w)
      else Set_delete (value cb) (selectedItems w).
Proof.
  unfold handleItemSelection.
  destruct (checked cb); eexists; (split; [reflexivity |]); reflexivity.
Qed.

(** A [forEach] whose body always returns and keeps [P] does so too. *)
Lemma forEach_invariant {A : Type} (P : world -> Prop) (f : A -> M unit)
    (l : list A) :
  (forall a w, P w -> exists w', f a w = Some (tt, w') /\ P w') ->
  forall w, P w -> exists w', forEach f l w = Some (tt, w') /\ P w'.
Proof.
  intros Hf. induction l as [| a l IH]; intros w Hw.
  - exists w. split; [reflexivity | exact Hw].
  - cbn [forEach]. unfold bind.
    destruct (Hf a w Hw) as (w1 & E1 & H1). rewrite E1.
    apply IH. exact H1.
Qed.

Lemma handleItemSelection_NoDup (cb : checkbox) (w : world) :
  NoDup (selectedItems w) ->
  exists w', handleItemSelection cb w = Some (tt, w') /\ NoDup (selectedItems w').
Proof.
  intros H. destruct (handleItemSelection_run cb w) as (w' & E & S).
  exists w'. split; [exact E |]. rewrite S.
  destruct (checked cb); [now apply Set_add_NoDup | now apply Set_delete_NoDup].
Qed.

Lemma on_selection_event_NoDup (ev : selection_event) (w : world) :
  NoDup (selectedItems w) ->
  exists w', on_selection_event ev w = Some (tt, w') /\ NoDup (selectedItems w').
Proof.
  intros H. destruct ev as [n c | c |]; cbn [on_selection_event].
  - unfold bind at 1. unfold gets at 1.
    destruct (nth_error (itemCheckboxes (page w)) n) as [cb |].
    + unfold bind at 1. unfold modify_page at 1. unfold modify at 1.
      now apply handleItemSelection_NoDup.
    + exists w. split; [reflexivity | exact H].
  - unfold toggleSelectAll. unfold bind at 1. unfold gets at 1.
    apply forEach_invariant; [| exact H].
    intros ncb w0 H0. unfold bind at 1. unfold modify_page at 1.
    unfold modify at 1. now apply handleItemSelection_NoDup.
  - eexists. split; [reflexivity |]. constructor.
Qed.

(** C9: the selection is a set of ids.  After any sequence of selection
    events on a freshly constructed manager it holds no id twice, so its size
    is the number of distinct selected ids; handling a ticked checkbox makes
    its id a member and an unticked one removes it, the other ids staying as
    they are; ticking an id that is already selected, or unticking one that
    is not, leaves the selection unchanged. *)
Theorem C9_selection_is_a_set (p : page_dom) (evs : list selection_event) :
  exists w,
    forEach on_selection_event evs (constructed p) = Some (tt, w) /\
    NoDup (selectedItems w) /\
    size w = length (nodup string_dec (selectedItems w)) /\
    (forall cb, exists w',
       handleItemSelection cb w = Some (tt, w') /\
       NoDup (selectedItems w') /\
       (forall y, In y (selectedItems w')
                  <-> if checked cb
                      then y = value cb \/ In y (selectedItems w)
                      else y <> value cb /\ In y (selectedItems w)) /\
       (checked cb = true -> In (value cb) (selectedItems w) ->
        selectedItems w' = selectedItems w) /\
       (checked cb = false -> ~ In (value cb) (selectedItems w) ->
        selectedItems w' = selectedItems w)).
Proof.
  destruct (forEach_invariant (fun w => NoDup (selectedItems w))
              on_selection_event evs on_selection_event_NoDup
              (constructed p) (NoDup_nil _)) as (w & E & H).
  exists w. split; [exact E |]. split; [exact H |].
  split; [unfold size; now rewrite nodup_fixed_point |].
  intros cb. destruct (handleItemSelection_run cb w) as (w' & E' & S').
  exists w'. split; [exact E' |]. rewrite S'.
  destruct (checked cb).
  - split; [now apply Set_add_NoDup |].
    split; [intros y; apply Set_add_In |].
    split; [intros _ Hin; now apply Set_add_member | discriminate].
  - split; [now apply Set_delete_NoDup |].
    split; [intros y; apply Set_delete_In |].
    split; [discriminate | intros _ Hout; now apply Set_delete_absent].
Qed.

(** The selection of C9 at work: "7" ticked twice and "9" once, then "7"
    unticked, on a page with rows "7", "7" and "9". *)
Example selection_run :
  exists w,
    forEach on_selection_event
      [ItemChange 0 true; ItemChange 1 true; ItemChange 2 true; ItemChange 0 false]
      (constructed
         {| itemCheckboxes := [{| value := "7"; checked := false |};
                               {| value := "7"; checked := false |};
                               {| value := "9"; checked := false |}];
            selectAll := Some (false, false);
            toolbar := Some (false, 0);
            updateModalOpen := false;
            stockModalOpen := false |}) = Some (tt, w)
    /\ selectedItems w = ["9"]
    /\ toolbar (page w) = Some (true, 1)
    /\ selectAll (page w) = Some (false, true).
Proof.
  eexists. split; [vm_compute; reflexivity |]. repeat split.
Qed.

(** The guard sits in [handleBulkAction] only: the Ctrl+U shortcut opens
    the update form, and loads its options, whatever the flag says. *)
Remark ctrlU_is_not_guarded :
  exists w',
    ctrlU (env_of (fun _ => ok_reply) no_click)
      (set_operationInProgress true (world_with (ids_1_to 3))) = Some (tt, w')
    /\ network w' = [GetCategories; GetSuppliers]
    /\ updateModalOpen (page w') = true.
Proof.
  eexists. split; [vm_compute; reflexivity |]. repeat split.
Qed.

(* ------------------------------------------------------------------ *)
(** * Further properties *)

(** ** Toolbar and header checkbox *)

Lemma updateSelectionToolbar_run (w : world) :
  exists w',
    updateSelectionToolbar w = Some (tt, w') /\
    toolbar_reflects w' /\
    selectedItems w' = selectedItems w /\
    itemCheckboxes (page w') = itemCheckboxes (page w) /\
    selectAll (page w') = selectAll (page w) /\
    (toolbar (page w') = None <-> toolbar (page w) = None).
Proof.
  unfold updateSelectionToolbar, bind, gets, modify_page, modify.
  eexists. split; [reflexivity |].
  unfold toolbar_reflects, size.
  destruct w as [sel flag cur pd [rows sa tb um sm] al net pc rf]. cbn.
  destruct tb as [[shown label] |]; [| repeat split; auto].
  destruct (length sel) as [| n]; cbn; repeat split; auto; discriminate.
Qed.

Lemma filter_checked_all (rows : list checkbox) :
  length (filter checked rows) = length rows
  <-> Forall (fun cb => checked cb = true) rows.
Proof.
  induction rows as [| cb rows IH]; [split; [constructor | reflexivity] |].
  cbn [filter length].
  pose proof (filter_length_le checked rows) as Hle.
  destruct (checked cb) eqn:E; cbn [length].
  - split.
    + intros H. constructor; [exact E | apply IH; lia].
    + intros H. inversion H; subst. f_equal. now apply IH.
  - split; [lia |]. intros H. inversion H; subst. congruence.
Qed.

Lemma filter_checked_some (rows : list checkbox) :
  length (filter checked rows) <> 0
  <-> Exists (fun cb => checked cb = true) rows.
Proof.
  induction rows as [| cb rows IH].
  - split; [intros H; now contradiction H | intros H; inversion H].
  - cbn [filter]. destruct (checked cb) eqn:E; cbn [length].
    + split; [intros _; now left | discriminate].
    + rewrite IH. split; [intros H; now right |].
      intros H. inversion H; subst; [congruence | assumption].
Qed.

Lemma not_all_checked (rows : list checkbox) :
  ~ Forall (fun cb => checked cb = true) rows
  <-> Exists (fun cb => checked cb = false) rows.
Proof.
  induction rows as [| cb rows IH].
  - split; [intros H; contradiction H; constructor | intros H; inversion H].
  - split.
    + intros H. destruct (checked cb) eqn:E; [| now left].
      right. apply IH. intros Hall. apply H. now constructor.
    + intros H Hall. inversion Hall; subst.
      inversion H; subst; [congruence |].
      now apply (proj2 IH).
Qed.

Lemma updateSelectAllState_run (w : world) :
  exists w',
    updateSelectAllState w = Some (tt, w') /\
    header_reflects w' /\
    selectedItems w' = selectedItems w /\
    itemCheckboxes (page w') = itemCheckboxes (page w) /\
    toolbar (page w') = toolbar (page w).
Proof.
  unfold updateSelectAllState, modify_page, modify.
  eexists. split; [reflexivity |].
  unfold header_reflects.
  destruct w as [sel flag cur pd [rows sa tb um sm] al net pc rf].
  cbn [page set_page selectAll itemCheckboxes toolbar selectedItems].
  destruct sa as [[c0 i0] |]; [| repeat split].
  destruct rows as [| cb rows]; [repeat split |].
  pose proof (filter_checked_all (cb :: rows)) as Hall.
  pose proof (filter_checked_some (cb :: rows)) as Hsome.
  pose proof (not_all_checked (cb :: rows)) as Hnot.
  destruct (Nat.eqb_spec (length (filter checked (cb :: rows))) 0) as [E0 | E0].
  - cbn [set_selectAll selectAll itemCheckboxes toolbar].
    repeat split; try discriminate.
    + intros H. apply (proj2 Hall) in H. cbn [length] in H. lia.
    + intros (H & _). apply (proj2 Hsome) in H. contradiction.
  - destruct (Nat.eqb_spec (length (filter checked (cb :: rows)))
                (length (cb :: rows))) as [E1 | E1];
      cbn [set_selectAll selectAll itemCheckboxes toolbar];
      repeat split; try discriminate.
    + intros _. apply (proj1 Hall). exact E1.
    + intros (_ & H). apply (proj2 Hnot) in H. exfalso. apply H.
      apply (proj1 Hall). exact E1.
    + intros H. apply (proj2 Hall) in H. contradiction.
    + apply (proj1 Hsome). exact E0.
    + apply (proj1 Hnot). intros Hf. apply (proj2 Hall) in Hf. contradiction.
Qed.

Lemma toolbar_reflects_transfer (w w' : world) :
  toolbar (page w') = toolbar (page w) ->
  selectedItems w' = selectedItems w ->
  toolbar_reflects w -> toolbar_reflects w'.
Proof.
  unfold toolbar_reflects, size. intros -> ->. exact (fun H => H).
Qed.

Lemma header_reflects_transfer (w w' : world) :
  selectAll (page w') = selectAll (page w) ->
  itemCheckboxes (page w') = itemCheckboxes (page w) ->
  header_reflects w -> header_reflects w'.
Proof.
  unfold header_reflects. intros -> ->. exact (fun H => H).
Qed.

(** One handled checkbox: the selection gains or loses its id, the rows stay
    as they are, and toolbar and header checkbox are brought up to date. *)
Lemma handleItemSelection_effect (cb : checkbox) (w : world) :
  exists w',
    handleItemSelection cb w = Some (tt, w') /\
    selectedItems w'
    = (if checked cb then Set_add (value cb) (selectedItems w)
       else Set_delete (value cb) (selectedItems w)) /\
    itemCheckboxes (page w') = itemCheckboxes (page w) /\
    toolbar_reflects w' /\
    header_reflects w'.
Proof.
  unfold handleItemSelection.
  set (w1 := if checked cb
             then set_selectedItems (Set_add (value cb) (selectedItems w)) w
             else set_selectedItems (Set_delete (value cb) (selectedItems w)) w).
  assert (E1 : (if checked cb
                then modify (fun w => set_selectedItems
                                        (Set_add (value cb) (selectedItems w)) w)
                else modify (fun w => set_selectedItems
                                        (Set_delete (value cb) (selectedItems w)) w))
               w = Some (tt, w1))
    by (subst w1; now destruct (checked cb)).
  assert (S1 : selectedItems w1
               = if checked cb then Set_add (value cb) (selectedItems w)
                 else Set_delete (value cb) (selectedItems w))
    by (subst w1; now destruct (checked cb)).
  assert (R1 : itemCheckboxes (page w1) = itemCheckboxes (page w))
    by (subst w1; now destruct (checked cb)).
  clearbody w1.
  destruct (updateSelectionToolbar_run w1) as (w2 & E2 & T2 & S2 & R2 & A2 & _).
  destruct (updateSelectAllState_run w2) as (w3 & E3 & H3 & S3 & R3 & T3).
  exists w3. unfold bind. rewrite E1, E2, E3.
  split; [reflexivity |].
  split; [congruence |]. split; [congruence |].
  split; [| exact H3].
  now apply (toolbar_reflects_transfer w2).
Qed.

Lemma clearSelection_effect (w : world) :
  exists w',
    clearSelection w = Some (tt, w') /\
    selectedItems w' = [] /\
    itemCheckboxes (page w') = map (set_checked false) (itemCheckboxes (page w)) /\
    toolbar_reflects w' /\
    header_reflects w'.
Proof.
  unfold clearSelection.
  unfold bind at 1. unfold modify at 1.
  unfold bind at 1. unfold modify_page at 1. unfold modify at 1.
  match goal with
  | |- context [bind updateSelectionToolbar _ ?w0] =>
      destruct (updateSelectionToolbar_run w0) as (w2 & E2 & T2 & S2 & R2 & A2 & _)
  end.
  destruct (updateSelectAllState_run w2) as (w3 & E3 & H3 & S3 & R3 & T3).
  exists w3. unfold bind. rewrite E2, E3.
  split; [reflexivity |].
  split; [rewrite S3, S2; reflexivity |].
  split; [rewrite R3, R2; reflexivity |].
  split; [| exact H3].
  now apply (toolbar_reflects_transfer w2).
Qed.

(** ** Select all, deselect all *)

Lemma set_checked_at_app (pre : list checkbox) (cb : checkbox)
    (rest : list checkbox) (c : bool) :
  set_checked_at (length pre) c (pre ++ cb :: rest)
  = pre ++ set_checked c cb :: rest.
Proof.
  induction pre as [| a pre IH]; [reflexivity |].
  cbn [length app set_checked_at]. now rewrite IH.
Qed.

Lemma check_all_from (c : bool) (rows : list checkbox) : forall pre,
  fold_left (fun l i => set_checked_at i c l)
            (seq (length pre) (length rows)) (pre ++ rows)
  = pre ++ map (set_checked c) rows.
Proof.
  induction rows as [| cb rows IH]; intros pre; [reflexivity |].
  cbn [length seq fold_left map].
  rewrite set_checked_at_app.
  change (pre ++ set_checked c cb :: rows)
    with (pre ++ [set_checked c cb] ++ rows).
  rewrite app_assoc.
  replace (S (length pre)) with (length (pre ++ [set_checked c cb]))
    by (rewrite length_app; cbn; lia).
  rewrite IH, <- app_assoc. reflexivity.
Qed.

(** The loop of [toggleSelectAll] over the rows [tail], the first of which
    has index [k]. *)
Lemma toggle_loop (c : bool) (tail : list checkbox) : forall k w,
  exists w',
    forEach (fun ncb : nat * checkbox =>
               modify_page (fun p =>
                 set_itemCheckboxes
                   (set_checked_at (fst ncb) c (itemCheckboxes p)) p) ;;
               handleItemSelection {| value := value (snd ncb); checked := c |})
            (combine (seq k (length tail)) tail) w = Some (tt, w') /\
    selectedItems w'
    = fold_left (fun s cb => if c then Set_add (value cb) s
                             else Set_delete (value cb) s)
                tail (selectedItems w) /\
    itemCheckboxes (page w')
    = fold_left (fun l i => set_checked_at i c l) (seq k (length tail))
                (itemCheckboxes (page w)) /\
    (toolbar_reflects w -> toolbar_reflects w') /\
    (header_reflects w -> header_reflects w').
Proof.
  induction tail as [| cb tail IH]; intros k w.
  - exists w. repeat split; auto.
  - cbn [length seq combine forEach fold_left].
    unfold bind at 1. unfold bind at 1.
    unfold modify_page at 1. unfold modify at 1. cbn [fst snd].
    match goal with
    | |- context [handleItemSelection ?x ?w0] =>
        destruct (handleItemSelection_effect x w0) as (w1 & E1 & S1 & R1 & T1 & H1)
    end.
    rewrite E1. cbn [checked value] in S1.
    destruct (IH (S k) w1) as (w2 & E2 & S2 & R2 & T2 & H2).
    exists w2. split; [exact E2 |].
    split; [rewrite S2, S1; reflexivity |].
    split; [rewrite R2, R1; reflexivity |].
    split; [intros _; now apply T2 | intros _; now apply H2].
Qed.

Lemma toggleSelectAll_effect (c : bool) (w : world) :
  exists w',
    toggleSelectAll c w = Some (tt, w') /\
    selectedItems w'
    = fold_left (fun s cb => if c then Set_add (value cb) s
                             else Set_delete (value cb) s)
                (itemCheckboxes (page w)) (selectedItems w) /\
    itemCheckboxes (page w') = map (set_checked c) (itemCheckboxes (page w)) /\
    (toolbar_reflects w -> toolbar_reflects w') /\
    (header_reflects w -> header_reflects w').
Proof.
  unfold toggleSelectAll. unfold bind at 1. unfold gets at 1.
  destruct (toggle_loop c (itemCheckboxes (page w)) 0 w)
    as (w' & E & S & R & T & H).
  exists w'. split; [exact E |]. split; [exact S |].
  split; [| split; assumption].
  rewrite R. apply (check_all_from c (itemCheckboxes (page w)) []).
Qed.

Lemma fold_add_In (rows : list checkbox) : forall (s : list item_id) (y : item_id),
  In y (fold_left (fun s cb => Set_add (value cb) s) rows s)
  <-> In y s \/ In y (map value rows).
Proof.
  induction rows as [| cb rows IH]; intros s y; cbn [fold_left map In].
  - tauto.
  - rewrite IH, Set_add_In. intuition auto.
Qed.

Lemma fold_delete_In (rows : list checkbox) : forall (s : list item_id) (y : item_id),
  In y (fold_left (fun s cb => Set_delete (value cb) s) rows s)
  <-> In y s /\ ~ In y (map value rows).
Proof.
  induction rows as [| cb rows IH]; intros s y; cbn [fold_left map In].
  - tauto.
  - rewrite IH, Set_delete_In. intuition auto.
Qed.

Lemma fold_toggle_NoDup (c : bool) (rows : list checkbox) : forall s,
  NoDup s ->
  NoDup (fold_left (fun s cb => if c then Set_add (value cb) s
                                else Set_delete (value cb) s) rows s).
Proof.
  induction rows as [| cb rows IH]; intros s H; [exact H |].
  cbn [fold_left]. apply IH.
  destruct c; [now apply Set_add_NoDup | now apply Set_delete_NoDup].
Qed.

(** X1: ticking the header checkbox adds the id of every row of the page to
    the selection and ticks every row; unticking it removes exactly the ids
    of the rows of the page (ids selected on no row of this page stay) and
    unticks every row.  The selection stays free of duplicates. *)
Theorem select_all_is_union_deselect_all_is_difference (c : bool) (w : world) :
  exists w',
    toggleSelectAll c w = Some (tt, w') /\
    (forall y, In y (selectedItems w')
               <-> if c
                   then In y (selectedItems w)
                        \/ In y (map value (itemCheckboxes (page w)))
                   else In y (selectedItems w)
                        /\ ~ In y (map value (itemCheckboxes (page w)))) /\
    itemCheckboxes (page w') = map (set_checked c) (itemCheckboxes (page w)) /\
    (NoDup (selectedItems w) -> NoDup (selectedItems w')).
Proof.
  destruct (toggleSelectAll_effect c w) as (w' & E & S & R & _).
  exists w'. split; [exact E |].
  split; [| split; [exact R |]].
  - intros y. rewrite S. destruct c; [apply fold_add_In | apply fold_delete_In].
  - intros H. rewrite S. now apply fold_toggle_NoDup.
Qed.

(** ** Invariants of the selection events *)

Lemma on_selection_event_effect (ev : selection_event) (w : world) :
  exists w',
    on_selection_event ev w = Some (tt, w') /\
    (toolbar_reflects w -> toolbar_reflects w') /\
    (header_reflects w -> header_reflects w').
Proof.
  destruct ev as [n c | c |]; cbn [on_selection_event].
  - unfold bind at 1. unfold gets at 1.
    destruct (nth_error (itemCheckboxes (page w)) n) as [cb |].
    + unfold bind at 1. unfold modify_page at 1. unfold modify at 1.
      match goal with
      | |- context [handleItemSelection ?x ?w0] =>
          destruct (handleItemSelection_effect x w0) as (w1 & E1 & _ & _ & T1 & H1)
      end.
      exists w1. split; [exact E1 |]. split; intros _; assumption.
    + exists w. split; [reflexivity |]. split; exact (fun H => H).
  - destruct (toggleSelectAll_effect c w) as (w' & E & _ & _ & T & H).
    exists w'. split; [exact E |]. split; assumption.
  - destruct (clearSelection_effect w) as (w' & E & _ & _ & T & H).
    exists w'. split; [exact E |]. split; intros _; assumption.
Qed.

Lemma init_run (containerPresent : bool) (p : page_dom) :
  exists w0,
    init containerPresent (constructed p) = Some (tt, w0) /\
    toolbar_reflects w0 /\
    selectedItems w0 = [] /\
    itemCheckboxes (page w0) = itemCheckboxes p /\
    selectAll (page w0) = selectAll p /\
    (toolbar (page w0) = None <-> toolbar p = None /\ containerPresent = false).
Proof.
  unfold init. unfold bind at 1.
  destruct (updateSelectionToolbar_run (constructed p))
    as (w1 & E1 & T1 & S1 & R1 & A1 & N1).
  rewrite E1. unfold initializeToolbar, bind, gets.
  cbn [constructed selectedItems page] in S1, R1, A1, N1.
  destruct (toolbar (page w1)) as [t |] eqn:Et.
  - exists w1. split; [reflexivity |].
    split; [exact T1 |]. split; [exact S1 |]. split; [exact R1 |].
    split; [exact A1 |].
    rewrite Et. split; [discriminate |].
    intros (Hn & _). apply (proj2 N1) in Hn. discriminate.
  - unfold createBulkToolbar, when.
    destruct containerPresent.
    + eexists. split; [reflexivity |].
      unfold toolbar_reflects, size. cbn. rewrite S1. cbn.
      split; [split; [reflexivity | discriminate] |].
      split; [reflexivity |]. split; [exact R1 |]. split; [exact A1 |].
      split; [discriminate | intros (_ & Hc); discriminate].
    + exists w1. split; [reflexivity |]. split; [exact T1 |].
      split; [exact S1 |]. split; [exact R1 |]. split; [exact A1 |].
      rewrite Et.
      split; [intros _; split; [now apply (proj1 N1) | reflexivity] | reflexivity].
Qed.

(** X2: once the manager is initialised, whatever checkbox, select-all and
    clear events follow, the toolbar (when the page has one) is displayed
    exactly when the selection is not empty, and then its counter shows the
    size of the selection. *)
Theorem toolbar_follows_the_selection
    (containerPresent : bool) (p : page_dom) (evs : list selection_event) :
  exists w0 w,
    init containerPresent (constructed p) = Some (tt, w0) /\
    forEach on_selection_event evs w0 = Some (tt, w) /\
    toolbar_reflects w.
Proof.
  destruct (init_run containerPresent p) as (w0 & E0 & T0 & _).
  destruct (forEach_invariant toolbar_reflects on_selection_event evs) with (w := w0)
    as (w & E & T); [| exact T0 |].
  - intros ev w1 H1.
    destruct (on_selection_event_effect ev w1) as (w2 & E2 & T2 & _).
    exists w2. split; [exact E2 | now apply T2].
  - exists w0, w. repeat split; assumption.
Qed.

(** X3: a handled checkbox or a clear leaves the header checkbox in step with
    the rows (checked exactly when all rows are ticked, indeterminate exactly
    when some but not all are), and a header checkbox that is in step stays
    so through any sequence of selection events. *)
Theorem header_checkbox_follows_the_rows (w : world) :
  (forall cb, exists w',
     handleItemSelection cb w = Some (tt, w') /\ header_reflects w') /\
  (exists w', clearSelection w = Some (tt, w') /\ header_reflects w') /\
  (header_reflects w ->
   forall evs, exists w',
     forEach on_selection_event evs w = Some (tt, w') /\ header_reflects w').
Proof.
  split; [| split].
  - intros cb.
    destruct (handleItemSelection_effect cb w) as (w' & E & _ & _ & _ & H).
    now exists w'.
  - destruct (clearSelection_effect w) as (w' & E & _ & _ & _ & H).
    now exists w'.
  - intros H evs.
    apply (forEach_invariant header_reflects on_selection_event evs); [| exact H].
    intros ev w1 H1.
    destruct (on_selection_event_effect ev w1) as (w2 & E2 & _ & H2).
    exists w2. split; [exact E2 | now apply H2].
Qed.

Lemma header_checkbox_follows_the_rows_witness :
  header_reflects (world_with (ids_1_to 3))
  /\ exists w',
       forEach on_selection_event [ItemChange 1 false; SelectAllChange true]
         (world_with (ids_1_to 3)) = Some (tt, w')
       /\ header_reflects w'.
Proof.
  assert (H : header_reflects (world_with (ids_1_to 3))).
  { unfold header_reflects. cbn. split.
    - split; [intros _; repeat constructor | reflexivity].
    - split; [discriminate |].
      intros (_ & H). repeat (inversion H as [? ? H0 | ? ? H0]; subst;
                              [discriminate H0 |]; clear H; rename H0 into H).
      inversion H. }
  split; [exact H |].
  exact (proj2 (proj2 (header_checkbox_follows_the_rows
                         (world_with (ids_1_to 3)))) H
           [ItemChange 1 false; SelectAllChange true]).
Defined.

(** ** The selection and the ticked rows *)

Lemma set_checked_at_values (c : bool) (rows : list checkbox) : forall n,
  map value (set_checked_at n c rows) = map value rows.
Proof.
  induction rows as [| r rows IH]; intros n; [now destruct n |].
  destruct n as [| n]; cbn [set_checked_at map value]; [reflexivity |].
  now rewrite IH.
Qed.

Lemma ticked_subset_values (rows : list checkbox) (x : item_id) :
  In x (map value (filter checked rows)) -> In x (map value rows).
Proof.
  rewrite !in_map_iff. intros (cb & E & H). apply filter_In in H.
  exists cb. tauto.
Qed.

(** Ticking or unticking row [n] of rows with distinct ids adds its id to, or
    removes it from, the ids of the ticked rows. *)
Lemma ticked_after_set (c : bool) (rows : list checkbox) : forall n cb x,
  NoDup (map value rows) ->
  nth_error rows n = Some cb ->
  In x (map value (filter checked (set_checked_at n c rows)))
  <-> if c then x = value cb \/ In x (map value (filter checked rows))
      else x <> value cb /\ In x (map value (filter checked rows)).
Proof.
  induction rows as [| r rows IH]; intros n cb x Hnd Hn;
    [destruct n; discriminate |].
  cbn [map] in Hnd. inversion Hnd as [| v vs Hnotin Hnd']; subst.
  destruct n as [| n]; cbn [nth_error] in Hn.
  - injection Hn as ->. cbn [set_checked_at filter set_checked checked value].
    pose proof (ticked_subset_values rows x) as Hsub.
    destruct c; cbn [filter checked map In value].
    + destruct (checked cb); cbn [map In]; intuition auto.
    + destruct (checked cb); cbn [map In]; split.
      * intros H. split; [| now right]. intros ->. apply Hnotin. now apply Hsub.
      * intros (Hne & [He | H]); [congruence | exact H].
      * intros H. split; [| exact H]. intros ->. apply Hnotin. now apply Hsub.
      * intros (_ & H). exact H.
  - assert (Hin : In (value cb) (map value rows))
      by (apply in_map, (nth_error_In _ _ Hn)).
    assert (Hne : value r <> value cb) by (intros E; apply Hnotin; now rewrite E).
    specialize (IH n cb x Hnd' Hn).
    cbn [set_checked_at filter].
    destruct (checked r); cbn [map In]; rewrite ?IH; destruct c;
      intuition (auto; congruence).
Qed.

Lemma NoDup_ticked (rows : list checkbox) :
  NoDup (map value rows) -> NoDup (map value (filter checked rows)).
Proof.
  induction rows as [| r rows IH]; intros H; [constructor |].
  cbn [map] in H. inversion H as [| v vs Hnotin Hnd]; subst.
  cbn [filter]. destruct (checked r); [| now apply IH].
  cbn [map]. constructor; [| now apply IH].
  intros Hin. apply Hnotin. now apply ticked_subset_values.
Qed.

Lemma filter_checked_set_all (c : bool) (rows : list checkbox) :
  filter checked (map (set_checked c) rows)
  = if c then map (set_checked c) rows else [].
Proof.
  induction rows as [| r rows IH]; [now destruct c |].
  cbn [map filter set_checked checked]. rewrite IH. now destruct c.
Qed.

Lemma set_all_values (c : bool) (rows : list checkbox) :
  map value (map (set_checked c) rows) = map value rows.
Proof. rewrite map_map. reflexivity. Qed.

Lemma on_selection_event_rows (vals : list item_id) (ev : selection_event)
    (w : world) :
  NoDup vals ->
  rows_invariant vals w ->
  exists w', on_selection_event ev w = Some (tt, w') /\ rows_invariant vals w'.
Proof.
  intros Hvals (Hm & Hnd & Hv).
  destruct ev as [n c | c |]; cbn [on_selection_event].
  - unfold bind at 1. unfold gets at 1.
    destruct (nth_error (itemCheckboxes (page w)) n) as [cb |] eqn:En.
    + unfold bind at 1. unfold modify_page at 1. unfold modify at 1.
      match goal with
      | |- context [handleItemSelection ?x ?w0] =>
          destruct (handleItemSelection_effect x w0) as (w1 & E1 & S1 & R1 & _)
      end.
      cbn [checked value selectedItems page set_page itemCheckboxes
           set_itemCheckboxes] in S1, R1.
      exists w1. split; [exact E1 |].
      split; [| split].
      * intros x. unfold ticked_ids. rewrite R1, S1.
        rewrite (ticked_after_set c _ n cb x) by (rewrite ?Hv; assumption).
        specialize (Hm x). unfold ticked_ids in Hm.
        destruct c; [rewrite Set_add_In | rewrite Set_delete_In];
          rewrite Hm; reflexivity.
      * rewrite S1.
        destruct c; [now apply Set_add_NoDup | now apply Set_delete_NoDup].
      * rewrite R1. now rewrite set_checked_at_values.
    + exists w. split; [reflexivity |]. exact (conj Hm (conj Hnd Hv)).
  - destruct (toggleSelectAll_effect c w) as (w' & E & S & R & _).
    exists w'. split; [exact E |].
    assert (Hsub : forall x, In x (selectedItems w) -> In x vals).
    { intros x Hx. apply Hm in Hx. rewrite <- Hv.
      now apply ticked_subset_values. }
    split; [| split].
    + intros x. unfold ticked_ids. rewrite R, S, filter_checked_set_all.
      destruct c.
      * rewrite fold_add_In, set_all_values, Hv. specialize (Hsub x). tauto.
      * rewrite fold_delete_In, Hv. cbn [map In]. specialize (Hsub x). tauto.
    + rewrite S. now apply fold_toggle_NoDup.
    + rewrite R. now rewrite set_all_values.
  - destruct (clearSelection_effect w) as (w' & E & S & R & _).
    exists w'. split; [exact E |].
    split; [| split].
    + intros x. unfold ticked_ids.
      rewrite R, S, (filter_checked_set_all false). reflexivity.
    + rewrite S. constructor.
    + rewrite R. now rewrite set_all_values.
Qed.

(** X4: on a page whose rows carry distinct ids and start unticked, after
    any sequence of checkbox, select-all and clear events the selection holds
    exactly the ids of the ticked rows, and its size is the number of ticked
    rows. *)
Theorem selection_is_the_ticked_rows (p : page_dom) (evs : list selection_event) :
  NoDup (map value (itemCheckboxes p)) ->
  Forall (fun cb => checked cb = false) (itemCheckboxes p) ->
  exists w,
    forEach on_selection_event evs (constructed p) = Some (tt, w) /\
    (forall x, In x (selectedItems w) <-> In x (ticked_ids w)) /\
    size w = length (filter checked (itemCheckboxes (page w))) /\
    map value (itemCheckboxes (page w)) = map value (itemCheckboxes p).
Proof.
  intros Hnd Hun.
  destruct (forEach_invariant (rows_invariant (map value (itemCheckboxes p)))
              on_selection_event evs) with (w := constructed p)
    as (w & E & Hm & Hs & Hv).
  - intros ev w1 H1. now apply on_selection_event_rows.
  - split; [| split; [constructor | reflexivity]].
    intros x. unfold ticked_ids. cbn [constructed selectedItems page].
    replace (filter checked (itemCheckboxes p)) with (@nil checkbox);
      [reflexivity |].
    symmetry. induction Hun as [| cb rows Hcb _ IH]; [reflexivity |].
    cbn [filter]. rewrite Hcb. apply IH. cbn [map] in Hnd. now inversion Hnd.
  - exists w. split; [exact E |]. split; [exact Hm |]. split; [| exact Hv].
    unfold size. rewrite <- (length_map value (filter checked _)).
    assert (Ht : NoDup (ticked_ids w))
      by (unfold ticked_ids; apply NoDup_ticked; now rewrite Hv).
    apply Nat.le_antisymm; apply NoDup_incl_length; try assumption;
      intros x Hx; now apply Hm.
Qed.

Lemma selection_is_the_ticked_rows_witness :
  NoDup (map value (itemCheckboxes (page_of_unticked (ids_1_to 3))))
  /\ Forall (fun cb => checked cb = false)
            (itemCheckboxes (page_of_unticked (ids_1_to 3)))
  /\ exists w,
       forEach on_selection_event
         [SelectAllChange true; ItemChange 1 false]
         (constructed (page_of_unticked (ids_1_to 3))) = Some (tt, w)
       /\ (forall x, In x (selectedItems w) <-> In x (ticked_ids w))
       /\ size w = length (filter checked (itemCheckboxes (page w))).
Proof.
  assert (Hnd : NoDup (map value (itemCheckboxes (page_of_unticked (ids_1_to 3))))).
  { cbn. repeat constructor; cbn; intuition discriminate. }
  assert (Hun : Forall (fun cb => checked cb = false)
                       (itemCheckboxes (page_of_unticked (ids_1_to 3))))
    by (cbn; repeat constructor).
  split; [exact Hnd |]. split; [exact Hun |].
  destruct (selection_is_the_ticked_rows
              (page_of_unticked (ids_1_to 3))
              [SelectAllChange true; ItemChange 1 false] Hnd Hun)
    as (w & E & Hm & Hs & _).
  exists w. repeat split; try assumption; now apply Hm.
Defined.

(** ** What a running loop leaves alone *)


















(** ** The modal at the end of an operation *)





(** ** More on the tally *)

Lemma completed_plus_failed cs e : forall k,
  completed_of cs e k + failed_of cs e k = length (concat cs).
Proof.
  induction cs as [| c cs IH]; intros k; [reflexivity |].
  cbn [completed_of failed_of concat]. rewrite length_app.
  specialize (IH (S k)). destruct (succeeded (response_of e k)); lia.
Qed.

(** X7: in the result of every operation function, each selected item is
    either counted as completed or belongs to a batch whose reply did not
    report success: completed plus the items of the failed batches is the
    total. *)
Theorem completed_and_failed_items_add_up
    (op : bulk_operation) (e : env) (w : world) :
  exists r w',
    operationFunc op e w = Some (r, w') /\
    completed r + failed_of (chunks (batchSize op) (selectedItems w)) e 0
    = total r /\
    total r = size w.
Proof.
  destruct (operationFunc_run op e w) as (w' & E & _).
  eexists _, w'. split; [exact E |]. cbn [completed total].
  split; [| reflexivity].
  rewrite completed_plus_failed, chunks_concat by apply batchSize_pos.
  reflexivity.
Qed.

Lemma stock_tally fd (l : list item_id) e : forall k,
  completed_of (singletons l) e k
  + length (errors_of (messages_for (BulkStockAdjustment fd)) (singletons l) e k)
  = length l.
Proof.
  induction l as [| x l IH]; intros k; [reflexivity |].
  cbn [singletons map completed_of errors_of messages_for hd length].
  rewrite length_app. specialize (IH (S k)).
  fold (singletons l).
  destruct (response_of e k) as [m | result]; cbn [succeeded item_messages].
  - cbn [length]. lia.
  - destruct (r_success result); cbn [length]; lia.
Qed.

(** X8: a stock adjustment records exactly one message per item that failed:
    completed plus the number of recorded errors is the total, and the
    result is a success exactly when every item was completed. *)
Theorem stock_adjustment_records_one_error_per_failed_item
    (formData : FormData) (e : env) (w : world) :
  exists r w',
    operationFunc (BulkStockAdjustment formData) e w = Some (r, w') /\
    completed r + length (errors r) = total r /\
    (success r = true <-> completed r = total r).
Proof.
  destruct (operationFunc_run (BulkStockAdjustment formData) e w)
    as (w' & E & _).
  eexists _, w'. split; [exact E |]. cbn [completed total errors success].
  cbn [batchSize]. rewrite chunks_1.
  pose proof (stock_tally formData (selectedItems w) e 0) as H.
  unfold size. split; [exact H |].
  rewrite Nat.eqb_eq. lia.
Qed.

(** ** More on the progress callbacks *)

Lemma last_cons {A : Type} (a d : A) (l : list A) :
  last (a :: l) d = last l a.
Proof.
  revert a d. induction l as [| b l IH]; intros a d; [reflexivity |].
  change (last (a :: b :: l) d) with (last (b :: l) d).
  now rewrite !IH.
Qed.

Lemma calls_of_last verb n cs e : forall k c,
  last (map reported (calls_of verb n cs e k c)) c = c + completed_of cs e k.
Proof.
  induction cs as [| ch cs IH]; intros k c; cbn [calls_of completed_of].
  - cbn. lia.
  - destruct (succeeded (response_of e k)).
    + cbn [map]. rewrite last_cons.
      change (reported (c + length ch, n,
                        template [verb; " "; show_nat (c + length ch); " of ";
                                  show_nat n; " products"]))
        with (c + length ch).
      rewrite IH. lia.
    + rewrite IH. lia.
Qed.

Lemma calls_of_strict verb n cs e :
  Forall (fun c => 1 <= length c) cs ->
  forall k c,
    StronglySorted lt (map reported (calls_of verb n cs e k c)) /\
    Forall (fun x => c < x) (map reported (calls_of verb n cs e k c)).
Proof.
  induction 1 as [| ch cs Hch _ IH]; intros k c; cbn [calls_of].
  - split; constructor.
  - destruct (succeeded (response_of e k)); [| apply IH].
    destruct (IH (S k) (c + length ch)) as (Hs & Hb).
    cbn [map].
    change (reported (c + length ch, n,
                      template [verb; " "; show_nat (c + length ch); " of ";
                                show_nat n; " products"]))
      with (c + length ch).
    split.
    + constructor; assumption.
    + constructor; [lia |].
      eapply Forall_impl; [| exact Hb]. cbn beta. intros x. lia.
Qed.

Lemma calls_of_length verb n cs e : forall k c,
  length (calls_of verb n cs e k c)
  = length (filter (fun j => succeeded (response_of e j)) (seq k (length cs))).
Proof.
  induction cs as [| ch cs IH]; intros k c; [reflexivity |].
  cbn [calls_of length seq filter].
  destruct (succeeded (response_of e k)); cbn [length]; now rewrite IH.
Qed.

(** X9: an operation function makes one progress callback per batch whose
    reply reports success and none for the others; the completed counts it
    reports are positive and strictly increasing, and the last one is the
    completed count of the result (which is 0 when there was no callback). *)
Theorem progress_callbacks_count_the_successes
    (op : bulk_operation) (e : env) (w : world) :
  exists r w' calls,
    operationFunc op e w = Some (r, w') /\
    progressCalls w' = progressCalls w ++ calls /\
    length calls
    = length (filter (fun k => succeeded (response_of e k))
                     (seq 0 (ceil_div (size w) (batchSize op)))) /\
    StronglySorted lt (map reported calls) /\
    Forall (fun x => 0 < x) (map reported calls) /\
    last (map reported calls) 0 = completed r.
Proof.
  pose proof (batchSize_pos op) as HB.
  destruct (operationFunc_run op e w) as (w' & E & _ & P & _).
  pose proof (chunks_sizes (batchSize op) (selectedItems w) HB) as Hsz.
  assert (Hne : Forall (fun c : list item_id => 1 <= length c)
                       (chunks (batchSize op) (selectedItems w)))
    by (eapply Forall_impl; [| exact Hsz]; cbn beta; intros c Hc; lia).
  eexists _, w', _. split; [exact E |]. split; [exact P |].
  cbn [completed].
  split.
  - rewrite calls_of_length. do 3 f_equal.
    apply chunks_fuel_length; [exact HB | apply Nat.le_refl].
  - destruct (calls_of_strict (verb_of op) (size w) _ e Hne 0 0) as (Hs & Hb).
    split; [exact Hs |]. split; [exact Hb |].
    now rewrite calls_of_last.
Qed.

(** ** Every id is sent once *)

(** X10: whatever selection events precede it on a fresh manager, an
    operation function sends every selected id in exactly one request: the
    batches of its requests hold no id twice, and hold exactly the selected
    ids. *)
Theorem every_selected_id_is_sent_exactly_once
    (p : page_dom) (evs : list selection_event)
    (op : bulk_operation) (e : env) :
  exists w r w' reqs,
    forEach on_selection_event evs (constructed p) = Some (tt, w) /\
    operationFunc op e w = Some (r, w') /\
    network w' = network w ++ reqs /\
    NoDup (concat (map batch_of reqs)) /\
    (forall x, In x (selectedItems w) <-> In x (concat (map batch_of reqs))).
Proof.
  destruct (forEach_invariant (fun w => NoDup (selectedItems w))
              on_selection_event evs on_selection_event_NoDup
              (constructed p) (NoDup_nil _)) as (w & Ew & Hnd).
  destruct (operationFunc_run op e w) as (w' & E & N & _).
  pose proof (batchSize_pos op) as HB.
  pose proof (chunks_sizes (batchSize op) (selectedItems w) HB) as Hsz.
  eexists w, _, w', _. split; [exact Ew |]. split; [exact E |].
  split; [exact N |].
  rewrite (map_batch_of_requests op _ Hsz), chunks_concat by exact HB.
  split; [exact Hnd | reflexivity].
Qed.

(** ** After a run *)

Lemma run_operation_clears (op : bulk_operation) (e : env) (w : world) :
  starts op e = true ->
  exists w',
    run_operation op e w = Some (tt, w') /\
    selectedItems w' = [] /\
    itemCheckboxes (page w')
    = map (set_checked false) (itemCheckboxes (page w)) /\
    toolbar_reflects w' /\
    header_reflects w' /\
    operationInProgress w' = false.
Proof.
  intros Hstarts.
  assert (Hrun : forall title wa,
             itemCheckboxes (page wa) = itemCheckboxes (page w) ->
             exists w',
               (executeOperation title (operationFunc op e) ;;
                refreshProductList) wa = Some (tt, w') /\
               selectedItems w' = [] /\
               itemCheckboxes (page w')
               = map (set_checked false) (itemCheckboxes (page w)) /\
               toolbar_reflects w' /\
               header_reflects w' /\
               operationInProgress w' = false).
  { intros title wa Hrows.
    destruct (executeOperation_run title (operationFunc op e) wa)
      as (w0 & (_ & _ & _ & _ & _ & _ & _ & _ & Pg0 & _) & Hfin).
    destruct (operationFunc_run op e w0) as (w2 & E2 & _ & _ & _ & F2).
    destruct (Hfin _ _ E2) as (w3 & E3 & _ & _ & _ & Pg3 & _ & _ & _ & O3 & _).
    destruct F2 as (_ & Pg2 & _ & _).
    destruct (clearSelection_effect w3) as (w4 & E4 & S4 & R4 & T4 & H4).
    assert (O4 : operationInProgress w4 = operationInProgress w3).
    { destruct (refreshProductList_run w3) as (w5 & E5 & _ & _ & _ & _ & _ & _ & O5 & _).
      unfold refreshProductList, bind in E5. rewrite E4 in E5.
      unfold modify in E5. injection E5 as <-. exact O5. }
    exists (count_refresh w4).
    unfold bind at 1. rewrite E3.
    unfold refreshProductList, bind. rewrite E4.
    split; [reflexivity |].
    split; [exact S4 |].
    split; [cbn; rewrite R4, Pg3, Pg2, Pg0, Hrows; reflexivity |].
    split; [exact (toolbar_reflects_transfer w4 (count_refresh w4) eq_refl eq_refl T4) |].
    split; [exact (header_reflects_transfer w4 (count_refresh w4) eq_refl eq_refl H4) |].
    cbn. congruence. }
  destruct op as [fd | fd | activate]; cbn [run_operation starts] in *.
  - unfold executeBulkUpdate.
    destruct (length (fields (parseUpdateFormData fd)) =? 0); [discriminate |].
    unfold bind at 1. unfold modify_page at 1. unfold modify at 1.
    apply Hrun. reflexivity.
  - unfold executeBulkStockAdjustment.
    unfold bind at 1. unfold modify_page at 1. unfold modify at 1.
    apply Hrun. reflexivity.
  - unfold bulkActivateDeactivate. rewrite Hstarts. cbn [negb].
    apply Hrun. reflexivity.
Qed.

(** X11: after a bulk operation that started (a field checked, the dialog
    confirmed), the selection is empty, every row is unticked, the toolbar is
    hidden, the header checkbox is in step with the rows and the in-progress
    flag is down; so the next bulk action, whichever it is, is answered by
    "Please select items first" and changes nothing else. *)
Theorem a_finished_run_clears_the_selection
    (op : bulk_operation) (e : env) (w : world) :
  starts op e = true ->
  exists w',
    run_operation op e w = Some (tt, w') /\
    selectedItems w' = [] /\
    Forall (fun cb => checked cb = false) (itemCheckboxes (page w')) /\
    map value (itemCheckboxes (page w')) = map value (itemCheckboxes (page w)) /\
    (forall label, toolbar (page w') <> Some (true, label)) /\
    header_reflects w' /\
    operationInProgress w' = false /\
    forall action e',
      handleBulkAction action e' w'
      = Some (tt, push_alert ("Please select items first", AlertWarning) w').
Proof.
  intros Hstarts.
  destruct (run_operation_clears op e w Hstarts)
    as (w' & E & S & R & T & H & O).
  exists w'. split; [exact E |]. split; [exact S |].
  split; [rewrite R; apply Forall_map; now apply Forall_forall |].
  split; [rewrite R; apply set_all_values |].
  split.
  { intros label Ht. unfold toolbar_reflects, size in T.
    rewrite Ht, S in T. destruct T as (T & _). discriminate. }
  split; [exact H |]. split; [exact O |].
  intros action e'. unfold handleBulkAction, bind, gets, size.
  rewrite O, S. reflexivity.
Qed.

Lemma a_finished_run_clears_the_selection_witness :
  starts (BulkActivate false) (env_of (fun _ => ok_reply) no_click) = true
  /\ exists w',
       run_operation (BulkActivate false) (env_of (fun _ => ok_reply) no_click)
         (world_with (ids_1_to 25)) = Some (tt, w')
       /\ selectedItems w' = []
       /\ handleBulkAction "export" (env_of (fun _ => ok_reply) no_click) w'
          = Some (tt, push_alert ("Please select items first", AlertWarning) w').
Proof.
  split; [reflexivity |].
  destruct (a_finished_run_clears_the_selection (BulkActivate false)
              (env_of (fun _ => ok_reply) no_click)
              (world_with (ids_1_to 25)) eq_refl)
    as (w' & E & S & _ & _ & _ & _ & _ & Hnext).
  exists w'. split; [exact E |]. split; [exact S |]. apply Hnext.
Defined.

(** ** Dispatch of the bulk actions *)

(** X13: with a selection and no operation in progress, the export action
    posts every selected id, in selection order, in one request (no batches),
    announces it, and leaves the selection, the in-progress flag and the
    progress modal as they were. *)
Theorem export_posts_the_whole_selection_once (e : env) (w : world) :
  operationInProgress w = false ->
  selectedItems w <> [] ->
  exists w',
    handleBulkAction "export" e w = Some (tt, w') /\
    network w' = network w ++ [PostExport (selectedItems w)] /\
    alerts w'
    = alerts w ++ [(template ["Export started for "; show_nat (size w);
                              " products"], AlertSuccess)] /\
    selectedItems w' = selectedItems w /\
    operationInProgress w' = false /\
    progressDom w' = progressDom w /\
    page w' = page w.
Proof.
  intros Hidle Hsel.
  unfold handleBulkAction, bind, gets, size. rewrite Hidle.
  destruct (selectedItems w) as [| x s] eqn:Es; [congruence |].
  cbn [length Nat.eqb String.eqb Ascii.eqb Bool.eqb andb].
  unfold exportSelected, bind, gets, fetch, showAlert, modify.
  eexists. split; [reflexivity |]. cbn. rewrite Es.
  repeat split. exact Hidle.
Qed.

Lemma export_posts_the_whole_selection_once_witness :
  operationInProgress (world_with (ids_1_to 25)) = false
  /\ selectedItems (world_with (ids_1_to 25)) <> []
  /\ exists w',
       handleBulkAction "export" (env_of (fun _ => ok_reply) no_click)
         (world_with (ids_1_to 25)) = Some (tt, w')
       /\ network w' = [PostExport (ids_1_to 25)].
Proof.
  assert (H1 : selectedItems (world_with (ids_1_to 25)) <> []) by discriminate.
  split; [reflexivity |]. split; [exact H1 |].
  destruct (export_posts_the_whole_selection_once
              (env_of (fun _ => ok_reply) no_click) (world_with (ids_1_to 25))
              eq_refl H1) as (w' & E & N & _).
  exists w'. split; [exact E | exact N].
Defined.

(** ** The CSRF token *)

Lemma string_app_assoc (a b c : string) :
  String.append (String.append a b) c = String.append a (String.append b c).
Proof.
  induction a as [| x a IH]; [reflexivity |]. cbn. now rewrite IH.
Qed.

Lemma string_app_empty (a : string) : String.append a EmptyString = a.
Proof.
  induction a as [| x a IH]; [reflexivity |]. cbn. now rewrite IH.
Qed.

Lemma prefix_empty (s : string) : String.prefix EmptyString s = true.
Proof. now destruct s. Qed.

Lemma prefix_other_char (c a : Ascii.ascii) (sep s : string) :
  Ascii.eqb a c = false -> String.prefix (String c sep) (String a s) = false.
Proof.
  intros H. cbn. destruct (Ascii.ascii_dec c a) as [-> | _]; [| reflexivity].
  rewrite Ascii.eqb_refl in H. discriminate.
Qed.

(** A piece without [;] is read through. *)
Lemma split_rows_plain (a : string) : forall rest acc,
  no_char ";"%char a = true ->
  split_from "; " (String.append a rest) acc 0
  = split_from "; " rest (String.append acc a) 0.
Proof.
  induction a as [| x a IH]; intros rest acc H.
  - cbn [String.append]. now rewrite string_app_empty.
  - cbn [no_char] in H. apply andb_true_iff in H as (Hx & Ha).
    apply negb_true_iff in Hx.
    cbn [String.append split_from].
    rewrite (prefix_other_char ";"%char x " " _ Hx).
    rewrite IH by exact Ha. f_equal.
    rewrite string_app_assoc. reflexivity.
Qed.

Lemma split_rows_separator (rest acc : string) :
  split_from "; " (String.append "; " rest) acc 0
  = acc :: split_from "; " rest EmptyString 0.
Proof.
  cbn [String.append split_from].
  replace (String.prefix "; " (String ";"%char (String " "%char rest))) with true
    by (cbn; now rewrite prefix_empty).
  reflexivity.
Qed.

Lemma split_rows_join (rows : list string) : forall x acc,
  no_char ";"%char x = true ->
  Forall (fun r => no_char ";"%char r = true) rows ->
  split_from "; " (cookie_of (x :: rows)) acc 0 = String.append acc x :: rows.
Proof.
  induction rows as [| y rows IH]; intros x acc Hx Hrows.
  - cbn [cookie_of String.concat].
    rewrite <- (string_app_empty x) at 1.
    rewrite split_rows_plain by exact Hx. reflexivity.
  - inversion Hrows as [| ? ? Hy Hrows']; subst.
    change (cookie_of (x :: y :: rows))
      with (String.append x (String.append "; " (cookie_of (y :: rows)))).
    rewrite split_rows_plain by exact Hx.
    rewrite split_rows_separator. f_equal.
    now rewrite IH.
Qed.

(** Splitting the cookie string gives back its rows. *)
Lemma split_cookie (rows : list string) :
  rows <> [] ->
  Forall (fun r => no_char ";"%char r = true) rows ->
  split "; " (cookie_of rows) = rows.
Proof.
  destruct rows as [| x rows]; [congruence |].
  intros _ H. inversion H; subst. unfold split.
  now rewrite split_rows_join.
Qed.

Lemma split_token (t : string) : forall acc,
  hd_error (split_from "=" t acc 0)
  = Some (String.append acc (before_char "="%char t)).
Proof.
  induction t as [| a t IH]; intros acc.
  - cbn. now rewrite string_app_empty.
  - cbn [split_from before_char].
    destruct (Ascii.eqb a "="%char) eqn:Ea.
    + apply Ascii.eqb_eq in Ea. subst a.
      replace (String.prefix "=" (String "="%char t)) with true
        by (cbn; now rewrite prefix_empty).
      cbn. now rewrite string_app_empty.
    + rewrite (prefix_other_char "="%char a EmptyString t Ea).
      rewrite IH, string_app_assoc. reflexivity.
Qed.

Lemma split_csrf_row (t : string) :
  nth_error (split "=" (String.append "csrftoken=" t)) 1
  = Some (before_char "="%char t).
Proof.
  unfold split. cbn [String.append split_from].
  repeat (rewrite prefix_other_char by reflexivity; cbn [String.append]).
  replace (String.prefix "=" (String "="%char t)) with true
    by (cbn; now rewrite prefix_empty).
  cbn [String.length Nat.sub nth_error].
  exact (split_token t EmptyString).
Qed.

Lemma before_char_absent (c : Ascii.ascii) (t : string) :
  no_char c t = true -> before_char c t = t.
Proof.
  induction t as [| a t IH]; [reflexivity |].
  cbn [no_char before_char]. intros H.
  apply andb_true_iff in H as (Ha & Ht). apply negb_true_iff in Ha.
  rewrite Ha. now rewrite IH.
Qed.

Lemma find_first {A : Type} (f : A -> bool) (before : list A) (x : A)
    (after : list A) :
  Forall (fun r => f r = false) before ->
  f x = true ->
  find f (before ++ x :: after) = Some x.
Proof.
  induction 1 as [| r before Hr _ IH]; intros Hx; cbn [app find].
  - now rewrite Hx.
  - rewrite Hr. now apply IH.
Qed.

Lemma find_none {A : Type} (f : A -> bool) (l : list A) :
  Forall (fun r => f r = false) l -> find f l = None.
Proof.
  induction 1 as [| r l Hr _ IH]; [reflexivity |].
  cbn [find]. now rewrite Hr.
Qed.

Lemma prefix_csrf (t : string) :
  String.prefix "csrftoken=" (String.append "csrftoken=" t) = true.
Proof. cbn. apply prefix_empty. Qed.

(** X14: when [document.cookie] lists a row [csrftoken=t], after rows that
    do not start with [csrftoken=], [getCSRFToken] returns [t] up to its
    first [=]; that is [t] itself when [t] holds no [=].  The meta tag is not
    consulted, and later rows do not matter. *)
Theorem csrf_token_is_read_from_the_cookie
    (before after : list string) (t : string) (meta : option (option string)) :
  Forall (fun r => no_char ";"%char r = true) (before ++ after) ->
  Forall (fun r => String.prefix "csrftoken=" r = false) before ->
  no_char ";"%char t = true ->
  getCSRFToken (cookie_of (before ++ String.append "csrftoken=" t :: after)) meta
  = Some (before_char "="%char t)
  /\ (no_char "="%char t = true -> before_char "="%char t = t).
Proof.
  intros Hplain Hbefore Ht.
  split; [| apply before_char_absent].
  unfold getCSRFToken.
  rewrite split_cookie.
  - rewrite (find_first _ before _ after Hbefore (prefix_csrf t)).
    apply split_csrf_row.
  - now destruct before.
  - apply Forall_app in Hplain as (Hb & Ha).
    apply Forall_app. split; [exact Hb |].
    constructor; [| exact Ha].
    cbn [String.append no_char Ascii.eqb Bool.eqb negb andb]. exact Ht.
Qed.

Lemma csrf_token_is_read_from_the_cookie_witness :
  Forall (fun r => no_char ";"%char r = true) (["sessionid=abc"] ++ ["theme=dark"])
  /\ Forall (fun r => String.prefix "csrftoken=" r = false) ["sessionid=abc"]
  /\ no_char ";"%char "Xy12Z" = true
  /\ getCSRFToken "sessionid=abc; csrftoken=Xy12Z; theme=dark" (Some (Some "m"))
     = Some "Xy12Z".
Proof.
  assert (H1 : Forall (fun r => no_char ";"%char r = true)
                      (["sessionid=abc"] ++ ["theme=dark"]))
    by (repeat constructor).
  assert (H2 : Forall (fun r => String.prefix "csrftoken=" r = false)
                      ["sessionid=abc"])
    by (repeat constructor).
  split; [exact H1 |]. split; [exact H2 |]. split; [reflexivity |].
  exact (proj1 (csrf_token_is_read_from_the_cookie
                  ["sessionid=abc"] ["theme=dark"] "Xy12Z" (Some (Some "m"))
                  H1 H2 eq_refl)).
Defined.

(** X15: when no row of [document.cookie] starts with [csrftoken=],
    [getCSRFToken] falls back on the meta tag: its [content] attribute when
    the page has the tag, the empty string when it has not. *)
Theorem csrf_token_falls_back_on_the_meta_tag
    (rows : list string) (meta : option (option string)) :
  Forall (fun r => no_char ";"%char r = true) rows ->
  Forall (fun r => String.prefix "csrftoken=" r = false) rows ->
  getCSRFToken (cookie_of rows) meta
  = match meta with
    | Some content => content
    | None => Some EmptyString
    end.
Proof.
  intros Hplain Hrows. unfold getCSRFToken.
  destruct rows as [| x rows].
  - reflexivity.
  - rewrite split_cookie by (congruence || assumption).
    now rewrite find_none.
Qed.

Lemma csrf_token_falls_back_on_the_meta_tag_witness :
  Forall (fun r => no_char ";"%char r = true) ["sessionid=abc"; "theme=dark"]
  /\ Forall (fun r => String.prefix "csrftoken=" r = false)
            ["sessionid=abc"; "theme=dark"]
  /\ getCSRFToken "sessionid=abc; theme=dark" (Some (Some "tok-from-meta"))
     = Some "tok-from-meta"
  /\ getCSRFToken "sessionid=abc; theme=dark" None = Some "".
Proof.
  assert (H1 : Forall (fun r => no_char ";"%char r = true)
                      ["sessionid=abc"; "theme=dark"])
    by (repeat constructor).
  assert (H2 : Forall (fun r => String.prefix "csrftoken=" r = false)
                      ["sessionid=abc"; "theme=dark"])
    by (repeat constructor).
  split; [exact H1 |]. split; [exact H2 |].
  split.
  - exact (csrf_token_falls_back_on_the_meta_tag
             ["sessionid=abc"; "theme=dark"] (Some (Some "tok-from-meta")) H1 H2).
  - exact (csrf_token_falls_back_on_the_meta_tag
             ["sessionid=abc"; "theme=dark"] None H1 H2).
Defined.

(** ** Opening the update form, Ctrl+A *)

(** X16: with a selection and no operation in progress, the update action
    only opens the update form: it asks for the categories and, unless that
    request failed, for the suppliers; the form is shown even after a failed
    lookup; no update is posted, the selection, the in-progress flag, the
    alerts and the progress modal stay as they were. *)
Theorem update_action_only_opens_the_form (e : env) (w : world) :
  operationInProgress w = false ->
  selectedItems w <> [] ->
  exists w',
    handleBulkAction "update" e w = Some (tt, w') /\
    network w'
    = network w ++ (if lookup_rejected e GetCategories
                    then [GetCategories]
                    else [GetCategories; GetSuppliers]) /\
    updateModalOpen (page w') = true /\
    selectedItems w' = selectedItems w /\
    operationInProgress w' = false /\
    alerts w' = alerts w /\
    progressDom w' = progressDom w /\
    progressCalls w' = progressCalls w.
Proof.
  intros Hidle Hsel.
  unfold handleBulkAction, bind, gets, size. rewrite Hidle.
  destruct (selectedItems w) as [| x s] eqn:Es; [congruence |].
  cbn [length Nat.eqb String.eqb Ascii.eqb Bool.eqb andb].
  unfold showBulkUpdateModal, loadSelectOptions, bind, fetch, modify_page, modify.
  destruct (lookup_rejected e GetCategories);
    (eexists; split; [reflexivity |]); cbn; rewrite ?Es, <- ?app_assoc;
    repeat split; assumption.
Qed.

Lemma update_action_only_opens_the_form_witness :
  operationInProgress (world_with (ids_1_to 3)) = false
  /\ selectedItems (world_with (ids_1_to 3)) <> []
  /\ exists w',
       handleBulkAction "update"
         {| response_of := fun _ => ok_reply;
            cancel_clicked := no_click;
            confirm_answer := true;
            lookup_rejected := fun _ => true |}
         (world_with (ids_1_to 3)) = Some (tt, w')
       /\ network w' = [GetCategories]
       /\ updateModalOpen (page w') = true.
Proof.
  assert (H1 : selectedItems (world_with (ids_1_to 3)) <> []) by discriminate.
  split; [reflexivity |]. split; [exact H1 |].
  destruct (update_action_only_opens_the_form
              {| response_of := fun _ => ok_reply;
                 cancel_clicked := no_click;
                 confirm_answer := true;
                 lookup_rejected := fun _ => true |}
              (world_with (ids_1_to 3)) eq_refl H1)
    as (w' & E & N & U & _).
  exists w'. split; [exact E |]. split; [exact N | exact U].
Defined.

(** X17: Ctrl+A does nothing on a page without a header checkbox; on a page
    with one it ticks every row and adds the id of every row to the
    selection, keeping what was selected before. *)
Theorem ctrl_a_selects_every_row (w : world) :
  exists w',
    selectAllVisible w = Some (tt, w') /\
    (selectAll (page w) = None -> w' = w) /\
    (selectAll (page w) <> None ->
     (forall y, In y (selectedItems w')
                <-> In y (selectedItems w)
                    \/ In y (map value (itemCheckboxes (page w)))) /\
     itemCheckboxes (page w') = map (set_checked true) (itemCheckboxes (page w))).
Proof.
  unfold selectAllVisible. unfold bind at 1. unfold gets at 1.
  destruct (selectAll (page w)) as [[c0 ind] |] eqn:Esel.
  - unfold bind at 1. unfold modify_page at 1. unfold modify at 1.
    match goal with
    | |- context [toggleSelectAll true ?w0] =>
        destruct (toggleSelectAll_effect true w0) as (w' & E & S & R & _)
    end.
    cbn [selectedItems page set_page itemCheckboxes set_selectAll] in S, R.
    exists w'. split; [exact E |]. split; [discriminate |].
    intros _. split; [| exact R].
    intros y. rewrite S. apply fold_add_In.
  - exists w. split; [reflexivity |]. split; [reflexivity | congruence].
Qed.

(** ** The in-progress guard during a run *)

(** With no other listener, [batchLoopAmid] is [batchLoop]. *)
Lemma batchLoopAmid_nothing_else B mkRequest verb e ids (fuel : nat) :
  forall i k c errs w,
    batchLoopAmid nothing_else fuel B mkRequest verb e ids i k c errs w
    = batchLoop fuel B mkRequest verb e ids i k c errs w.
Proof.
  induction fuel as [| fuel IH]; intros i k c errs w;
    cbn [batchLoopAmid batchLoop]; destruct (i <? length ids); try reflexivity.
  unfold bind, fetch, modify, nothing_else, ret.
  destruct (suspended e (AwaitResponse k) _) as [[[] w1] |]; [| reflexivity].
  destruct (settleBatch _ _ _ _ _ _ w1) as [[[c' errs'] w2] |]; [| reflexivity].
  apply IH.
Qed.

Lemma bulkActivateDeactivateAmid_nothing_else (activate : bool) e w :
  bulkActivateDeactivateAmid nothing_else activate e w
  = bulkActivateDeactivate activate e w.
Proof.
  unfold bulkActivateDeactivateAmid, bulkActivateDeactivate.
  destruct (negb (confirm_answer e)); [reflexivity |].
  unfold executeOperation, activateOperationAmid, activateOperation.
  unfold bind, gets, modify_progress, modify.
  now rewrite batchLoopAmid_nothing_else.
Qed.

(** C7 fails on the code: the guard sits in [handleBulkAction] alone and
    reads a flag that Cancel lowers while the loop goes on.  Two runs of a
    bulk activation of 45 items (batches of 20, 20 and 5), every reply
    reporting success.  In the first the user presses Ctrl+U while the first
    reply is awaited and submits the update form: no warning is shown, a
    second operation starts, posts its five update batches and takes over the
    progress modal, and the activation then goes on.  In the second the user
    clicks Cancel while the first reply is awaited and Export while the
    second is: the export is posted, not turned down, and the third
    activation batch follows. *)
Theorem C7_second_operation_during_a_run :
  (exists w',
     bulkActivateDeactivateAmid
       (ctrlU_then_submit (env_of (fun _ => ok_reply) no_click)) true
       (env_of (fun _ => ok_reply) no_click)
       (world_with (ids_1_to 45)) = Some (tt, w')
     /\ map (fun q => match q with
                      | PostBulkActivate ids _ => ("activate", length ids)
                      | PostBulkUpdate ids _ => ("update", length ids)
                      | _ => ("lookup", 0)
                      end) (network w')
        = [("activate", 20); ("lookup", 0); ("lookup", 0);
           ("update", 10); ("update", 10); ("update", 10); ("update", 10);
           ("update", 5); ("activate", 20); ("activate", 5)]
     /\ alerts w'
        = [("Operation completed successfully! Processed 45 items.",
            AlertSuccess);
           ("Operation completed successfully! Processed 45 items.",
            AlertSuccess)]
     /\ currentOperation w' = Some "Bulk Update Products"
     /\ progressTitle (progressDom w') = "Bulk Update Products")
  /\
  (exists w',
     bulkActivateDeactivateAmid
       (export_during_second
          (env_of (fun _ => ok_reply) (click_at (AwaitResponse 0)))) true
       (env_of (fun _ => ok_reply) (click_at (AwaitResponse 0)))
       (world_with (ids_1_to 45)) = Some (tt, w')
     /\ network w'
        = [PostBulkActivate (map show_nat (seq 1 20)) true;
           PostBulkActivate (map show_nat (seq 21 20)) true;
           PostExport (ids_1_to 45);
           PostBulkActivate (map show_nat (seq 41 5)) true]
     /\ alerts w'
        = [("Operation cancelled", AlertWarning);
           ("Export started for 45 products", AlertSuccess);
           ("Operation completed successfully! Processed 45 items.",
            AlertSuccess)]).
Proof.
  split; eexists; (split; [vm_compute; reflexivity |]);
    repeat split; vm_compute; reflexivity.
Qed.
